(** * Stopwatch endless runner: the simulation core of [game.js]

    A shallow embedding of the game loop, the player motion model, the
    obstacle field and the collision test of [src/game.js], with the
    properties its specification states about them.

    Number model.  JavaScript numbers are taken as exact rationals ([Q]):
    the score, which only ever receives [Math.floor] results, is an
    integer ([Z]); lane indices are integers ([Z]).  Rounding of binary64
    arithmetic is outside the model: where a sum of steps meets a
    threshold exactly, the statements below are about the exact sum.
    Equality of rationals is [==] ([Qeq]).

    Canvas.  [canvas.width] and [canvas.height] come from the page, which
    is not part of the sources: they are the parameter [canvas] of the
    section.

    Drawing and DOM updates ([ctx], [scoreEl], [restartBtn]) change no
    simulation variable and are left out.  [Math.random] is an input of
    the frame: the two draws [spawnObstacle] would make.
    [requestAnimationFrame] only decides when [loop] is called next: a
    run is the list of the calls that happen, commands and frames. *)

From Stdlib Require Import ZArith QArith Qround Qabs Lqa Lia List Bool
  Permutation Sorted.
Import ListNotations.
Open Scope Q_scope.

(** ** JavaScript primitives on exact numbers *)

Module JS.

(** [a < b] *)
Definition ltb (a b : Q) : bool := negb (Qle_bool b a).
(** [a <= b] *)
Definition leb (a b : Q) : bool := Qle_bool a b.
(** [a > b] *)
Definition gtb (a b : Q) : bool := ltb b a.
(** [a >= b] *)
Definition geb (a b : Q) : bool := leb b a.
(** [!v] on a number: true exactly for zero *)
Definition falsy (v : Q) : bool := Qeq_bool v 0.

Definition Math_min (a b : Q) : Q := if leb a b then a else b.
Definition Math_floor (v : Q) : Z := Qfloor v.
Definition Math_pow (b : Q) (e : Z) : Q := Qpower b e.

End JS.

(** ** Data *)

Record Canvas := { width : Q; height : Q }.

Module Obstacle.

Inductive kind_t := low | tall.

(** The object literal [{x, y:yBase, w, h, kind}] of [spawnObstacle]. *)
Record t := mk { x : Q; y : Q; w : Q; h : Q; kind : kind_t }.

Definition set_x (v : Q) (o : t) : t :=
  {| x := v; y := y o; w := w o; h := h o; kind := kind o |}.

(** Same obstacle up to the representation of its rationals. *)
Definition eqv (a b : t) : Prop :=
  x a == x b /\ y a == y b /\ w a == w b /\ h a == h b /\ kind a = kind b.

End Obstacle.

(** The module-level [let] variables of the script. *)
Record state := {
  running : bool;
  score : Z;
  lastTime : Q;
  laneIndex : Z;
  laneProgress : Q;
  laneFrom : Z;
  laneTo : Z;
  y : Q;
  vy : Q;
  sliding : bool;
  slideTimer : Q;
  obstacles : list Obstacle.t;
  spawnTimer : Q
}.

(** The two [Math.random()] results a call of [spawnObstacle] consumes. *)
Record draws := { rnd_lane : Q; rnd_kind : Q }.

(** What can happen to the game: a command of the input layer, or one
    animation frame with its timestamp. *)
Inductive event :=
| EReset
| EMoveLeft
| EMoveRight
| EJump
| ESlide
| EFrame (ts : Q) (rnd : draws).

(** *** Sample inputs *)

(** A full-HD canvas, a small portrait one, a pair of draws, and [n]
    animation frames [d] milliseconds apart starting at [t0]. *)
Definition hd_canvas : Canvas := {| width := 1920; height := 1080 |}.
Definition small_canvas : Canvas := {| width := 480; height := 800 |}.
Definition some_draws : draws := {| rnd_lane := 0.7; rnd_kind := 0.2 |}.

Fixpoint frames (n : nat) (t0 d : Q) : list event :=
  match n with
  | O => []
  | S k => EFrame t0 some_draws :: frames k (t0 + d) d
  end.

(** *** Assignments to one variable *)

Definition set_running (v : bool) (s : state) : state :=
  {| running := v; score := score s; lastTime := lastTime s;
     laneIndex := laneIndex s; laneProgress := laneProgress s;
     laneFrom := laneFrom s; laneTo := laneTo s; y := y s; vy := vy s;
     sliding := sliding s; slideTimer := slideTimer s;
     obstacles := obstacles s; spawnTimer := spawnTimer s |}.

Definition set_score (v : Z) (s : state) : state :=
  {| running := running s; score := v; lastTime := lastTime s;
     laneIndex := laneIndex s; laneProgress := laneProgress s;
     laneFrom := laneFrom s; laneTo := laneTo s; y := y s; vy := vy s;
     sliding := sliding s; slideTimer := slideTimer s;
     obstacles := obstacles s; spawnTimer := spawnTimer s |}.

Definition set_lastTime (v : Q) (s : state) : state :=
  {| running := running s; score := score s; lastTime := v;
     laneIndex := laneIndex s; laneProgress := laneProgress s;
     laneFrom := laneFrom s; laneTo := laneTo s; y := y s; vy := vy s;
     sliding := sliding s; slideTimer := slideTimer s;
     obstacles := obstacles s; spawnTimer := spawnTimer s |}.

Definition set_laneProgress (v : Q) (s : state) : state :=
  {| running := running s; score := score s; lastTime := lastTime s;
     laneIndex := laneIndex s; laneProgress := v;
     laneFrom := laneFrom s; laneTo := laneTo s; y := y s; vy := vy s;
     sliding := sliding s; slideTimer := slideTimer s;
     obstacles := obstacles s; spawnTimer := spawnTimer s |}.

Definition set_y (v : Q) (s : state) : state :=
  {| running := running s; score := score s; lastTime := lastTime s;
     laneIndex := laneIndex s; laneProgress := laneProgress s;
     laneFrom := laneFrom s; laneTo := laneTo s; y := v; vy := vy s;
     sliding := sliding s; slideTimer := slideTimer s;
     obstacles := obstacles s; spawnTimer := spawnTimer s |}.

Definition set_vy (v : Q) (s : state) : state :=
  {| running := running s; score := score s; lastTime := lastTime s;
     laneIndex := laneIndex s; laneProgress := laneProgress s;
     laneFrom := laneFrom s; laneTo := laneTo s; y := y s; vy := v;
     sliding := sliding s; slideTimer := slideTimer s;
     obstacles := obstacles s; spawnTimer := spawnTimer s |}.

Definition set_sliding (v : bool) (s : state) : state :=
  {| running := running s; score := score s; lastTime := lastTime s;
     laneIndex := laneIndex s; laneProgress := laneProgress s;
     laneFrom := laneFrom s; laneTo := laneTo s; y := y s; vy := vy s;
     sliding := v; slideTimer := slideTimer s;
     obstacles := obstacles s; spawnTimer := spawnTimer s |}.

Definition set_slideTimer (v : Q) (s : state) : state :=
  {| running := running s; score := score s; lastTime := lastTime s;
     laneIndex := laneIndex s; laneProgress := laneProgress s;
     laneFrom := laneFrom s; laneTo := laneTo s; y := y s; vy := vy s;
     sliding := sliding s; slideTimer := v;
     obstacles := obstacles s; spawnTimer := spawnTimer s |}.

Definition set_obstacles (v : list Obstacle.t) (s : state) : state :=
  {| running := running s; score := score s; lastTime := lastTime s;
     laneIndex := laneIndex s; laneProgress := laneProgress s;
     laneFrom := laneFrom s; laneTo := laneTo s; y := y s; vy := vy s;
     sliding := sliding s; slideTimer := slideTimer s;
     obstacles := v; spawnTimer := spawnTimer s |}.

Definition set_spawnTimer (v : Q) (s : state) : state :=
  {| running := running s; score := score s; lastTime := lastTime s;
     laneIndex := laneIndex s; laneProgress := laneProgress s;
     laneFrom := laneFrom s; laneTo := laneTo s; y := y s; vy := vy s;
     sliding := sliding s; slideTimer := slideTimer s;
     obstacles := obstacles s; spawnTimer := v |}.

(** ** The program *)

Section Game.

Variable canvas : Canvas.

(** *** Game constants *)

Definition W : Q := width canvas.
Definition H : Q := height canvas.
Definition LANES : list Q := [W * 0.25; W * 0.5; W * 0.75].
Definition LANE_INDEX_MIN : Z := 0.
Definition LANE_INDEX_MAX : Z := 2.
Definition GROUND_Y : Q := H - 120.
Definition GRAVITY : Q := 2200.
Definition JUMP_VY : Q := -1100.
Definition SLIDE_TIME : Q := 0.5.
Definition PLAYER_SPEED : Q := 420.
Definition SPAWN_EVERY : Q := 1.0.
Definition OBSTACLE_SPEED : Q := PLAYER_SPEED.
Definition PLAYER_W : Q := 80.
Definition PLAYER_H : Q := 120.
Definition PLAYER_H_SLIDE : Q := 70.
Definition LANE_SWITCH_TIME : Q := 0.15.

(** The initial values of the [let] declarations (lines 21-34). *)
Definition script_state : state :=
  {| running := true; score := 0; lastTime := 0;
     laneIndex := 1; laneProgress := 0; laneFrom := 1; laneTo := 1;
     y := GROUND_Y - PLAYER_H; vy := 0;
     sliding := false; slideTimer := 0;
     obstacles := []; spawnTimer := 0 |}.

(** *** Helpers *)

(** [clamp(v, a, b)] on lane indices. *)
Definition clamp (v a b : Z) : Z := Z.max a (Z.min b v).

(** [reset()]: every variable is assigned. *)
Definition reset (s : state) : state :=
  {| running := true; score := 0; lastTime := 0;
     laneIndex := 1; laneProgress := 1; laneFrom := 1; laneTo := 1;
     y := GROUND_Y - PLAYER_H; vy := 0;
     sliding := false; slideTimer := 0;
     obstacles := []; spawnTimer := 0 |}.

(** *** Lane moves *)

Definition beginLaneMove (newIndex0 : Z) (s : state) : state :=
  let newIndex := clamp newIndex0 LANE_INDEX_MIN LANE_INDEX_MAX in
  if (newIndex =? laneTo s)%Z then s
  else
    {| running := running s; score := score s; lastTime := lastTime s;
       laneIndex := newIndex; laneProgress := 0;
       laneFrom := laneIndex s; laneTo := newIndex;
       y := y s; vy := vy s;
       sliding := sliding s; slideTimer := slideTimer s;
       obstacles := obstacles s; spawnTimer := spawnTimer s |}.

Definition moveLeft (s : state) : state := beginLaneMove (laneIndex s - 1) s.
Definition moveRight (s : state) : state := beginLaneMove (laneIndex s + 1) s.

(** *** Jump and slide *)

Definition currentPlayerH (s : state) : Q :=
  if sliding s then PLAYER_H_SLIDE else PLAYER_H.

Definition onGround (s : state) : bool :=
  JS.geb (y s) (GROUND_Y - currentPlayerH s).

Definition jump (s : state) : state :=
  if onGround s && running s then set_vy JUMP_VY (set_sliding false s)
  else s.

Definition slide (s : state) : state :=
  if negb (running s) then s
  else if negb (sliding s) && onGround s
       then set_slideTimer SLIDE_TIME (set_sliding true s)
       else s.

(** *** Obstacles *)

(** [spawnObstacle()].  The lane drawn is computed and never used: the
    object pushed has no lane. *)
Definition spawnObstacle (rnd : draws) (s : state) : state :=
  let lane := JS.Math_floor (rnd_lane rnd * 3) in
  let kind := if JS.ltb (rnd_kind rnd) 0.5 then Obstacle.low else Obstacle.tall in
  let w := 80 in
  let h := match kind with Obstacle.low => 70 | Obstacle.tall => 120 end in
  let x := W + 100 in
  let yBase := GROUND_Y - h in
  set_obstacles (obstacles s ++ [Obstacle.mk x yBase w h kind]) s.

(** *** Collision, axis-aligned boxes *)

Definition collides (ax ay aw ah bx by_ bw bh : Q) : bool :=
  JS.ltb ax (bx + bw) && JS.gtb (ax + aw) bx
  && JS.ltb ay (by_ + bh) && JS.gtb (ay + ah) by_.

Definition easeOutCubic (t : Q) : Q := 1 - JS.Math_pow (1 - t) 3.

(** *** The game loop *)

(** [LANES[i]]: [None] is JavaScript's [undefined] of an index outside the
    array. *)
Definition LANES_at (i : Z) : option Q :=
  if (0 <=? i)%Z then nth_error LANES (Z.to_nat i) else None.

(** The delta computed at lines 165-166. *)
Definition frame_dt (ts : Q) (s : state) : Q :=
  let lastTime1 := if JS.falsy (lastTime s) then ts else lastTime s in
  JS.Math_min 0.032 ((ts - lastTime1) / 1000).

(** Line 170. *)
Definition score_step (dt : Q) (s : state) : state :=
  if running s then set_score (score s + JS.Math_floor (200 * dt)) s else s.

(** Lines 180-182. *)
Definition lane_step (dt : Q) (s : state) : state :=
  if JS.ltb (laneProgress s) 1
  then set_laneProgress
         (JS.Math_min 1 (laneProgress s + dt / LANE_SWITCH_TIME)) s
  else s.

(** Line 183: the local [laneX]; [None] stands for the [NaN] an
    [undefined] lane would give. *)
Definition laneX (s : state) : option Q :=
  match LANES_at (laneFrom s), LANES_at (laneTo s) with
  | Some a, Some b => Some (a + (b - a) * easeOutCubic (laneProgress s))
  | _, _ => None
  end.

(** Lines 186-189. *)
Definition physics_step (dt : Q) (s : state) : state :=
  let s1 := set_vy (vy s + GRAVITY * dt) s in
  let s2 := set_y (y s1 + vy s1 * dt) s1 in
  let groundTop := GROUND_Y - currentPlayerH s2 in
  if JS.gtb (y s2) groundTop then set_vy 0 (set_y groundTop s2) else s2.

(** Lines 191-194. *)
Definition slide_step (dt : Q) (s : state) : state :=
  if sliding s then
    let s1 := set_slideTimer (slideTimer s - dt) s in
    if JS.leb (slideTimer s1) 0 then set_sliding false s1 else s1
  else s.

(** Lines 197-201. *)
Definition spawn_step (dt : Q) (rnd : draws) (s : state) : state :=
  let s1 := set_spawnTimer (spawnTimer s + dt) s in
  if JS.geb (spawnTimer s1) SPAWN_EVERY
  then spawnObstacle rnd (set_spawnTimer 0 s1)
  else s1.

(** Lines 202-206.  The loop runs from the last index down, moving each
    obstacle and splicing it out when it has left the screen; removing
    index [i] does not disturb the indices below it, so the array that
    remains is the moved survivors in their order. *)
Definition move_step (dt : Q) (s : state) : state :=
  set_obstacles
    (fold_right
       (fun o rest =>
          let o' := Obstacle.set_x (Obstacle.x o - OBSTACLE_SPEED * dt) o in
          if JS.ltb (Obstacle.x o') (-150) then rest else o' :: rest)
       [] (obstacles s))
    s.

(** The test of line 219 for one obstacle, with the player box of lines
    212-213.  A [NaN] abscissa makes every comparison false. *)
Definition hits (s : state) (o : Obstacle.t) : bool :=
  let pw := PLAYER_W in
  let ph := currentPlayerH s in
  match laneX s with
  | Some lx =>
      collides (lx - pw / 2) (y s) pw ph
               (Obstacle.x o - Obstacle.w o / 2) (Obstacle.y o)
               (Obstacle.w o) (Obstacle.h o)
  | None => false
  end.

(** Lines 217-225: the [for ... of] with its [break]. *)
Definition collision_step (s : state) : state :=
  if running s then
    if existsb (hits s) (obstacles s) then set_running false s else s
  else s.

(** Lines 169-194: the score and the player. *)
Definition player_step (dt : Q) (s : state) : state :=
  slide_step dt (physics_step dt (lane_step dt (score_step dt s))).

(** Lines 197-206: the obstacle field. *)
Definition obstacle_step (dt : Q) (rnd : draws) (s : state) : state :=
  move_step dt (spawn_step dt rnd s).

(** Lines 169-225 for a given [dt].  [laneX] is read at line 183 from
    variables that no later line of the frame assigns, so reading it in
    [collision_step] gives the same value. *)
Definition advance (dt : Q) (rnd : draws) (s : state) : state :=
  collision_step (obstacle_step dt rnd (player_step dt s)).

(** [loop(ts)]. *)
Definition loop (ts : Q) (rnd : draws) (s : state) : state :=
  let dt := frame_dt ts s in
  advance dt rnd (set_lastTime ts s).

(** *** Runs *)

Definition step (e : event) (s : state) : state :=
  match e with
  | EReset => reset s
  | EMoveLeft => moveLeft s
  | EMoveRight => moveRight s
  | EJump => jump s
  | ESlide => slide s
  | EFrame ts rnd => loop ts rnd s
  end.

Definition run (evs : list event) (s : state) : state :=
  fold_left (fun s e => step e s) evs s.

(** The script ends with [reset()]; only then can an event arrive. *)
Definition boot : state := reset script_state.

(** Reachable by some commands and frames, whatever the timestamps of
    the frames: the browser produces some of these runs, not all. *)
Definition reachable (s : state) : Prop := exists evs, s = run evs boot.

(** *** Traces *)

Definition is_reset (e : event) : bool :=
  match e with EReset => true | _ => false end.

(** No [reset()] among the events: they belong to one run. *)
Definition no_reset (evs : list event) : Prop :=
  forallb (fun e => negb (is_reset e)) evs = true.

(** How many events of the trace take [running] from true to false. *)
Fixpoint endings (evs : list event) (s : state) : nat :=
  match evs with
  | [] => 0
  | e :: evs' =>
      ((if running s && negb (running (step e s)) then 1 else 0)
       + endings evs' (step e s))%nat
  end.

Definition is_frame (e : event) : bool :=
  match e with EFrame _ _ => true | _ => false end.

Definition is_lane_move (e : event) : bool :=
  match e with EMoveLeft | EMoveRight => true | _ => false end.



(** The [dt] of each frame of a trace, in order. *)
Fixpoint frame_dts (evs : list event) (s : state) : list Q :=
  match evs with
  | [] => []
  | e :: evs' =>
      match e with
      | EFrame ts _ => [frame_dt ts s]
      | _ => []
      end ++ frame_dts evs' (step e s)
  end.

Definition total_time (dts : list Q) : Q := fold_right Qplus 0 dts.





(** *** Invariants of the reachable states *)

(** A slide in progress has time left. *)
Definition slide_inv (s : state) : Prop :=
  sliding s = true -> 0 < slideTimer s.

(** Between frames the spawn timer is short of the interval, and no
    obstacle is left of the pruning line. *)
Definition field_inv (s : state) : Prop :=
  spawnTimer s < SPAWN_EVERY /\
  Forall (fun o => -150 <= Obstacle.x o) (obstacles s).

(** The lane variables index [LANES]; the logical lane is the target of
    the interpolation, whose fraction never exceeds 1. *)
Definition lane_inv (s : state) : Prop :=
  (0 <= laneFrom s <= 2)%Z /\ (0 <= laneTo s <= 2)%Z /\
  laneIndex s = laneTo s /\ laneProgress s <= 1.

(** *** Obstacles as [spawnObstacle] makes them *)

(** Width 80, height 70 for a low and 120 for a tall one, standing on
    the ground line, and not past the pruning line. *)
Definition obstacle_ok (o : Obstacle.t) : Prop :=
  Obstacle.w o = 80 /\
  ((Obstacle.kind o = Obstacle.low /\ Obstacle.h o = 70) \/
   (Obstacle.kind o = Obstacle.tall /\ Obstacle.h o = 120)) /\
  Obstacle.y o == GROUND_Y - Obstacle.h o /\
  -150 <= Obstacle.x o.

(** The two passes of lines 202-206, one obstacle at a time. *)
Definition moved (dt : Q) (o : Obstacle.t) : Obstacle.t :=
  Obstacle.set_x (Obstacle.x o - OBSTACLE_SPEED * dt) o.

Definition on_screen (o : Obstacle.t) : bool :=
  negb (JS.ltb (Obstacle.x o) (-150)).

(** *** Swipe detection (touch), lines 57-82 *)

Definition SWIPE_MIN_DIST : Q := 30.
Definition SWIPE_MAX_TIME : Q := 600.

(** A value read from the event: a number, or [None] for [undefined],
    which arithmetic turns into [NaN]. *)
Definition num := option Q.

(** [a - b]: [NaN] as soon as one side is not a number. *)
Definition num_sub (a b : num) : num :=
  match a, b with
  | Some x, Some y => Some (x - y)
  | _, _ => None
  end.

(** [Math.abs]. *)
Definition Math_abs (a : num) : num := option_map Qabs a.

(** [a > b] and [a < b]: false as soon as one side is [NaN]. *)
Definition num_gtb (a b : num) : bool :=
  match a, b with
  | Some x, Some y => JS.gtb x y
  | _, _ => false
  end.

Definition num_ltb (a b : num) : bool :=
  match a, b with
  | Some x, Some y => JS.ltb x y
  | _, _ => false
  end.

(** [touchStartX], [touchStartY], [touchStartT]. *)
Record touch := { touchStartX : num; touchStartY : num; touchStartT : Q }.

(** The [touchstart] listener: [clientX] and [clientY] are what
    [e.changedTouches.clientX] and [.clientY] evaluate to, [now] is
    [performance.now()]. *)
Definition touchstart (clientX clientY : num) (now : Q) : touch :=
  {| touchStartX := clientX; touchStartY := clientY; touchStartT := now |}.

(** The [touchend] listener: the command it calls, if any. *)
Definition touchend (clientX clientY : num) (now : Q) (t0 : touch)
  : option event :=
  let dx := num_sub clientX (touchStartX t0) in
  let dy := num_sub clientY (touchStartY t0) in
  let dt := now - touchStartT t0 in
  if JS.leb dt SWIPE_MAX_TIME then
    if num_gtb (Math_abs dx) (Math_abs dy)
       && num_gtb (Math_abs dx) (Some SWIPE_MIN_DIST)
    then (if num_ltb dx (Some 0) then Some EMoveLeft else Some EMoveRight)
    else if num_gtb (Math_abs dy) (Some SWIPE_MIN_DIST)
    then (if num_ltb dy (Some 0) then Some EJump else Some ESlide)
    else None
  else None.

(** *** Runs whose time does not go back *)

(** Reachable by commands and frames none of which has a negative [dt]:
    what a clock that never goes back can produce. *)
Definition reachable_forward (s : state) : Prop :=
  exists evs,
    s = run evs boot /\ Forall (fun d => 0 <= d) (frame_dts evs boot).

(** From left to right. *)
Definition left_to_right (l : list Obstacle.t) : Prop :=
  StronglySorted (fun a b => Obstacle.x a <= Obstacle.x b) l.


(** ** Comparisons and rounding *)

Lemma ltb_spec (a b : Q) : BoolSpec (a < b) (b <= a) (JS.ltb a b).
Proof.
  unfold JS.ltb. destruct (Qle_bool b a) eqn:E; simpl; constructor.
  - now apply Qle_bool_iff.
  - apply Qnot_le_lt. intro L. apply Qle_bool_iff in L. congruence.
Qed.

Lemma leb_spec (a b : Q) : BoolSpec (a <= b) (b < a) (JS.leb a b).
Proof.
  unfold JS.leb. destruct (Qle_bool a b) eqn:E; constructor.
  - now apply Qle_bool_iff.
  - apply Qnot_le_lt. intro L. apply Qle_bool_iff in L. congruence.
Qed.

Lemma gtb_spec (a b : Q) : BoolSpec (b < a) (a <= b) (JS.gtb a b).
Proof. unfold JS.gtb. apply ltb_spec. Qed.

Lemma geb_spec (a b : Q) : BoolSpec (b <= a) (a < b) (JS.geb a b).
Proof. unfold JS.geb. apply leb_spec. Qed.

Lemma falsy_spec (v : Q) : BoolSpec (v == 0) (~ v == 0) (JS.falsy v).
Proof.
  unfold JS.falsy. destruct (Qeq_bool v 0) eqn:E; constructor.
  - now apply Qeq_bool_iff.
  - intro A. apply Qeq_bool_iff in A. congruence.
Qed.

Lemma Math_min_spec (a b : Q) :
  (a <= b /\ JS.Math_min a b = a) \/ (b < a /\ JS.Math_min a b = b).
Proof. unfold JS.Math_min. destruct (leb_spec a b); auto. Qed.

Lemma Math_min_le_l (a b : Q) : JS.Math_min a b <= a.
Proof. destruct (Math_min_spec a b) as [[? ->]|[? ->]]; lra. Qed.

Lemma Math_min_le_r (a b : Q) : JS.Math_min a b <= b.
Proof. destruct (Math_min_spec a b) as [[? ->]|[? ->]]; lra. Qed.

(** [lra] after the divisions by the constants of the program have been
    turned into products. *)
Ltac qlra :=
  unfold Qdiv, LANE_SWITCH_TIME, SPAWN_EVERY in *;
  change (/ 1000) with (1 # 1000) in *;
  change (/ 0.15) with (100 # 15) in *;
  change (/ 2) with (1 # 2) in *;
  lra.

(** Case analysis on every comparison of the goal. *)
Ltac js_cases :=
  repeat match goal with
    | |- context [JS.ltb ?a ?b] => destruct (ltb_spec a b)
    | |- context [JS.gtb ?a ?b] => destruct (gtb_spec a b)
    | |- context [JS.leb ?a ?b] => destruct (leb_spec a b)
    | |- context [JS.geb ?a ?b] => destruct (geb_spec a b)
    end.


Lemma floor_ge (v : Q) (k : Z) : inject_Z k <= v -> (k <= Qfloor v)%Z.
Proof.
  intros L. rewrite <- (Qfloor_Z k). now apply Qfloor_resp_le.
Qed.



(** ** Runs *)

Lemma run_app (e1 e2 : list event) (s : state) :
  run (e1 ++ e2) s = run e2 (run e1 s).
Proof. unfold run. apply fold_left_app. Qed.

Lemma run_cons (e : event) (evs : list event) (s : state) :
  run (e :: evs) s = run evs (step e s).
Proof. reflexivity. Qed.

Lemma reachable_boot : reachable boot.
Proof. exists []. reflexivity. Qed.

Lemma reachable_step (e : event) (s : state) :
  reachable s -> reachable (step e s).
Proof.
  intros [evs ->]. exists (evs ++ [e]). now rewrite run_app.
Qed.


(** An induction principle for reachable states. *)
Lemma reachable_ind (P : state -> Prop) :
  P boot ->
  (forall e s, reachable s -> P s -> P (step e s)) ->
  forall s, reachable s -> P s.
Proof.
  intros B S s [evs ->].
  induction evs as [|e evs IH] using rev_ind; [exact B|].
  rewrite run_app. cbn. apply S; [now exists evs | exact IH].
Qed.

(** ** What each part of the frame assigns *)

Ltac state_simpl :=
  cbn [running score lastTime laneIndex laneProgress laneFrom laneTo y vy
       sliding slideTimer obstacles spawnTimer
       set_running set_score set_lastTime set_laneProgress set_y set_vy
       set_sliding set_slideTimer set_obstacles set_spawnTimer] in *.

Lemma score_step_fields (dt : Q) (s : state) :
  score_step dt s = set_score (score (score_step dt s)) s.
Proof.
  unfold score_step.
  destruct s as [[] ? ? ? ? ? ? ? ? ? ? ? ?]; reflexivity.
Qed.

Lemma lane_step_fields (dt : Q) (s : state) :
  lane_step dt s = set_laneProgress (laneProgress (lane_step dt s)) s.
Proof. unfold lane_step. destruct s, (JS.ltb _ _); reflexivity. Qed.

Lemma physics_step_fields (dt : Q) (s : state) :
  physics_step dt s =
  set_vy (vy (physics_step dt s)) (set_y (y (physics_step dt s)) s).
Proof.
  unfold physics_step. cbv zeta. destruct s, (JS.gtb _ _); reflexivity.
Qed.

Lemma slide_step_fields (dt : Q) (s : state) :
  slide_step dt s =
  set_sliding (sliding (slide_step dt s))
    (set_slideTimer (slideTimer (slide_step dt s)) s).
Proof.
  unfold slide_step. cbv zeta.
  destruct s as [? ? ? ? ? ? ? ? ? [] ? ? ?]; state_simpl;
    [destruct (JS.leb _ _)|]; reflexivity.
Qed.

Lemma spawn_step_fields (dt : Q) (rnd : draws) (s : state) :
  spawn_step dt rnd s =
  set_obstacles (obstacles (spawn_step dt rnd s))
    (set_spawnTimer (spawnTimer (spawn_step dt rnd s)) s).
Proof.
  unfold spawn_step, spawnObstacle. cbv zeta.
  destruct s, (JS.geb _ _); reflexivity.
Qed.

Lemma collision_step_fields (s : state) :
  collision_step s = set_running (running (collision_step s)) s.
Proof.
  unfold collision_step.
  destruct s as [[] ? ? ? ? ? ? ? ? ? ? ? ?]; state_simpl;
    [destruct (existsb _ _)|]; reflexivity.
Qed.

(** A reading [f] of the state that does not depend on the variables a
    part of the frame assigns is not changed by that part. *)
Section Keeps.

Context {A : Type} (f : state -> A).

Lemma score_step_keeps :
  (forall v s, f (set_score v s) = f s) ->
  forall dt s, f (score_step dt s) = f s.
Proof. intros K dt s. rewrite score_step_fields. apply K. Qed.

Lemma lane_step_keeps :
  (forall v s, f (set_laneProgress v s) = f s) ->
  forall dt s, f (lane_step dt s) = f s.
Proof. intros K dt s. rewrite lane_step_fields. apply K. Qed.

Lemma physics_step_keeps :
  (forall a b s, f (set_vy a (set_y b s)) = f s) ->
  forall dt s, f (physics_step dt s) = f s.
Proof. intros K dt s. rewrite physics_step_fields. apply K. Qed.

Lemma slide_step_keeps :
  (forall a b s, f (set_sliding a (set_slideTimer b s)) = f s) ->
  forall dt s, f (slide_step dt s) = f s.
Proof. intros K dt s. rewrite slide_step_fields. apply K. Qed.

Lemma spawn_step_keeps :
  (forall a b s, f (set_obstacles a (set_spawnTimer b s)) = f s) ->
  forall dt rnd s, f (spawn_step dt rnd s) = f s.
Proof. intros K dt rnd s. rewrite spawn_step_fields. apply K. Qed.

Lemma move_step_keeps :
  (forall v s, f (set_obstacles v s) = f s) ->
  forall dt s, f (move_step dt s) = f s.
Proof. intros K dt s. unfold move_step. apply K. Qed.

Lemma collision_step_keeps :
  (forall v s, f (set_running v s) = f s) ->
  forall s, f (collision_step s) = f s.
Proof. intros K s. rewrite collision_step_fields. apply K. Qed.

End Keeps.

(** Rewrite away, from the outside in, the parts of the frame that do
    not assign what [f] reads. *)
Ltac keep f :=
  repeat first
    [ rewrite (collision_step_keeps f) by (intros; reflexivity)
    | rewrite (move_step_keeps f) by (intros; reflexivity)
    | rewrite (spawn_step_keeps f) by (intros; reflexivity)
    | rewrite (slide_step_keeps f) by (intros; reflexivity)
    | rewrite (physics_step_keeps f) by (intros; reflexivity)
    | rewrite (lane_step_keeps f) by (intros; reflexivity)
    | rewrite (score_step_keeps f) by (intros; reflexivity) ].

Ltac open_loop :=
  unfold loop, advance, obstacle_step, player_step; cbv zeta.

Lemma running_player_step (dt : Q) (s : state) :
  running (player_step dt s) = running s.
Proof. unfold player_step. keep running. reflexivity. Qed.

Lemma running_obstacle_step (dt : Q) (rnd : draws) (s : state) :
  running (obstacle_step dt rnd s) = running s.
Proof. unfold obstacle_step. keep running. reflexivity. Qed.

Lemma score_player_step (dt : Q) (s : state) :
  score (player_step dt s) = score (score_step dt s).
Proof. unfold player_step. keep score. reflexivity. Qed.

Lemma score_obstacle_step (dt : Q) (rnd : draws) (s : state) :
  score (obstacle_step dt rnd s) = score s.
Proof. unfold obstacle_step. keep score. reflexivity. Qed.

Lemma score_collision_step (s : state) :
  score (collision_step s) = score s.
Proof. keep score. reflexivity. Qed.

Lemma score_advance (dt : Q) (rnd : draws) (s : state) :
  score (advance dt rnd s) =
  if running s then (score s + JS.Math_floor (200 * dt))%Z else score s.
Proof.
  unfold advance.
  rewrite score_collision_step, score_obstacle_step, score_player_step.
  unfold score_step. destruct (running s); reflexivity.
Qed.

Lemma running_collision_step_false (s : state) :
  running s = false -> running (collision_step s) = false.
Proof. intros R. unfold collision_step. now rewrite R. Qed.

Lemma running_advance_false (dt : Q) (rnd : draws) (s : state) :
  running s = false -> running (advance dt rnd s) = false.
Proof.
  intros R. unfold advance. apply running_collision_step_false.
  now rewrite running_obstacle_step, running_player_step.
Qed.

(** ** Reset *)

(** C9.  After any sequence of commands and frames, from any state,
    [reset()] leaves every simulation variable at its initial value:
    centre lane with the interpolation settled, score 0, no obstacle,
    spawn timer 0, not sliding with slide timer 0, standing on the ground
    with no vertical velocity, running.  The state is the one the script
    starts from. *)
Theorem reset_restores_initial_state (evs : list event) (s : state) :
  let s' := reset (run evs s) in
  laneIndex s' = 1%Z /\ laneFrom s' = 1%Z /\ laneTo s' = 1%Z /\
  laneProgress s' = 1 /\
  score s' = 0%Z /\
  obstacles s' = [] /\
  spawnTimer s' = 0 /\
  sliding s' = false /\ slideTimer s' = 0 /\
  y s' = GROUND_Y - PLAYER_H /\ onGround s' = true /\ vy s' = 0 /\
  running s' = true /\
  lastTime s' = 0 /\
  s' = boot.
Proof.
  cbv zeta. repeat split.
  unfold onGround, currentPlayerH. cbn [sliding y reset].
  destruct (geb_spec (GROUND_Y - PLAYER_H) (GROUND_Y - PLAYER_H)) as [_|A];
    [reflexivity | lra].
Qed.

(** ** The overlap test *)

(** C7.  [collides] is true for the player box (100,100,80,120) against
    the obstacle box (100,130,80,70), false against (300,100,80,120),
    and false for any two boxes one of whose edges only touches the
    opposite edge of the other, on either axis and either side. *)
Theorem collides_examples_and_touching_edges :
  collides 100 100 80 120 100 130 80 70 = true /\
  collides 100 100 80 120 300 100 80 120 = false /\
  forall ax ay aw ah bx by_ bw bh : Q,
    ax + aw == bx \/ bx + bw == ax \/ ay + ah == by_ \/ by_ + bh == ay ->
    collides ax ay aw ah bx by_ bw bh = false.
Proof.
  split; [reflexivity|]. split; [reflexivity|].
  intros ax ay aw ah bx by_ bw bh T. unfold collides.
  js_cases; try reflexivity.
  exfalso. destruct T as [T|[T|[T|T]]]; lra.
Qed.

(** [collides] says exactly that the open boxes overlap on both axes. *)
Lemma collides_iff (ax ay aw ah bx by_ bw bh : Q) :
  collides ax ay aw ah bx by_ bw bh = true <->
  ax < bx + bw /\ bx < ax + aw /\ ay < by_ + bh /\ by_ < ay + ah.
Proof.
  unfold collides. js_cases; cbn; split; intros A;
    try discriminate; try reflexivity; try lra.
Qed.

(** ** The collision pass does not depend on the order of the obstacles *)

Lemma existsb_Permutation {A : Type} (f : A -> bool) (l l' : list A) :
  Permutation l l' -> existsb f l = existsb f l'.
Proof.
  induction 1 as [|a l l' _ IH|a b l|l l' l'' _ IH1 _ IH2]; cbn.
  - reflexivity.
  - now rewrite IH.
  - destruct (f a), (f b); reflexivity.
  - now rewrite IH1.
Qed.

Lemma hits_set_obstacles (obs : list Obstacle.t) (s : state) :
  hits (set_obstacles obs s) = hits s.
Proof. reflexivity. Qed.

(** C8.  With the player and everything else of the post-integration
    state fixed, two obstacle arrays holding the same boxes in different
    orders give the same outcome of the collision pass: the run ends for
    one exactly when it ends for the other. *)
Theorem collision_outcome_order_independent
    (s : state) (obs obs' : list Obstacle.t) :
  Permutation obs obs' ->
  running (collision_step (set_obstacles obs s)) =
  running (collision_step (set_obstacles obs' s)).
Proof.
  intros P. unfold collision_step.
  cbn [running obstacles set_obstacles]. rewrite !hits_set_obstacles.
  rewrite (existsb_Permutation (hits s) obs obs' P).
  destruct (running s); [|reflexivity].
  destruct (existsb (hits s) obs'); reflexivity.
Qed.

(** ** The end of a run is final *)

Lemma beginLaneMove_running_score (i : Z) (s : state) :
  running (beginLaneMove i s) = running s /\
  score (beginLaneMove i s) = score s.
Proof.
  unfold beginLaneMove. cbv zeta.
  destruct (_ =? laneTo s)%Z; split; reflexivity.
Qed.

Lemma step_stopped (e : event) (s : state) :
  is_reset e = false -> running s = false ->
  running (step e s) = false /\ score (step e s) = score s.
Proof.
  intros NR R. destruct e as [| | | | |ts rnd]; cbn [step];
    try discriminate.
  - unfold moveLeft.
    destruct (beginLaneMove_running_score (laneIndex s - 1) s) as [-> ->].
    now split.
  - unfold moveRight.
    destruct (beginLaneMove_running_score (laneIndex s + 1) s) as [-> ->].
    now split.
  - unfold jump. rewrite R, andb_false_r. now split.
  - unfold slide. rewrite R. now split.
  - unfold loop. cbv zeta. split.
    + now apply running_advance_false.
    + rewrite score_advance. cbn [running set_lastTime]. now rewrite R.
Qed.

Lemma run_stopped (evs : list event) (s : state) :
  no_reset evs -> running s = false ->
  running (run evs s) = false /\ score (run evs s) = score s /\
  endings evs s = 0%nat.
Proof.
  unfold no_reset. revert s.
  induction evs as [|e evs IH]; intros s NR R; [now repeat split|].
  cbn [forallb] in NR. apply andb_true_iff in NR as [NE NR].
  apply negb_true_iff in NE.
  destruct (step_stopped e s NE R) as [R' S'].
  destruct (IH (step e s) NR R') as (A & B & C).
  rewrite run_cons. cbn [endings]. rewrite R, C. cbn.
  repeat split; [exact A | congruence].
Qed.

(** C2.  In a trace without [reset()]: from a state where [running] is
    false, whatever commands and frames follow, [running] stays false
    and the score keeps its value; and [running] goes from true to false
    at most once in the whole trace. *)
Theorem ended_run_is_final (evs : list event) (s : state) :
  no_reset evs ->
  (running s = false ->
   running (run evs s) = false /\ score (run evs s) = score s) /\
  (endings evs s <= 1)%nat.
Proof.
  intros NR. split.
  - intros R. destruct (run_stopped evs s NR R) as (A & B & _). now split.
  - revert s NR. induction evs as [|e evs IH]; intros s NR; [cbn; lia|].
    pose proof NR as NR0.
    unfold no_reset in NR. cbn [forallb] in NR.
    apply andb_true_iff in NR as [NE NR]. apply negb_true_iff in NE.
    cbn [endings].
    destruct (running s) eqn:R.
    + destruct (running (step e s)) eqn:R'; cbn [andb negb].
      * specialize (IH (step e s) NR). lia.
      * destruct (run_stopped evs (step e s) NR R') as (_ & _ & ->). lia.
    + destruct (step_stopped e s NE R) as [R' _].
      destruct (run_stopped evs (step e s) NR R') as (_ & _ & ->).
      rewrite R'. cbn. lia.
Qed.

(** ** The score of a frame *)

Lemma frame_dt_le (ts : Q) (s : state) : frame_dt ts s <= 0.032.
Proof. unfold frame_dt. apply Math_min_le_l. Qed.


(** ** What a frame does to each variable *)

Lemma lane_step_reads (dt : Q) (s s' : state) :
  laneProgress s' = laneProgress s ->
  laneProgress (lane_step dt s') = laneProgress (lane_step dt s).
Proof.
  intros E. unfold lane_step. rewrite E.
  destruct (JS.ltb _ _); state_simpl; congruence.
Qed.

Lemma physics_step_reads (dt : Q) (s s' : state) :
  y s' = y s -> vy s' = vy s -> sliding s' = sliding s ->
  y (physics_step dt s') = y (physics_step dt s) /\
  vy (physics_step dt s') = vy (physics_step dt s).
Proof.
  intros E1 E2 E3. unfold physics_step, currentPlayerH. cbv zeta.
  state_simpl. rewrite E1, E2, E3.
  destruct (JS.gtb _ _); state_simpl; auto.
Qed.

Lemma slide_step_reads (dt : Q) (s s' : state) :
  sliding s' = sliding s -> slideTimer s' = slideTimer s ->
  sliding (slide_step dt s') = sliding (slide_step dt s) /\
  slideTimer (slide_step dt s') = slideTimer (slide_step dt s).
Proof.
  intros E1 E2. unfold slide_step. cbv zeta.
  destruct s, s'; state_simpl; subst.
  match goal with |- context [if ?b then _ else _] => destruct b end;
    [destruct (JS.leb _ _)|]; state_simpl; auto.
Qed.

Lemma spawn_step_reads (dt : Q) (rnd : draws) (s s' : state) :
  spawnTimer s' = spawnTimer s -> obstacles s' = obstacles s ->
  spawnTimer (spawn_step dt rnd s') = spawnTimer (spawn_step dt rnd s) /\
  obstacles (spawn_step dt rnd s') = obstacles (spawn_step dt rnd s).
Proof.
  intros E1 E2. unfold spawn_step, spawnObstacle. cbv zeta. state_simpl.
  rewrite E1, E2. destruct (JS.geb _ _); state_simpl; auto.
Qed.

Lemma sliding_loop (ts : Q) (rnd : draws) (s : state) :
  sliding (loop ts rnd s) = sliding (slide_step (frame_dt ts s) s).
Proof.
  open_loop. keep sliding.
  apply slide_step_reads; [keep sliding | keep slideTimer]; reflexivity.
Qed.

Lemma slideTimer_loop (ts : Q) (rnd : draws) (s : state) :
  slideTimer (loop ts rnd s) = slideTimer (slide_step (frame_dt ts s) s).
Proof.
  open_loop. keep slideTimer.
  apply slide_step_reads; [keep sliding | keep slideTimer]; reflexivity.
Qed.

Lemma spawnTimer_loop (ts : Q) (rnd : draws) (s : state) :
  spawnTimer (loop ts rnd s) = spawnTimer (spawn_step (frame_dt ts s) rnd s).
Proof.
  open_loop. keep spawnTimer.
  apply spawn_step_reads; [keep spawnTimer | keep obstacles]; reflexivity.
Qed.


Lemma obstacles_loop (ts : Q) (rnd : draws) (s : state) :
  obstacles (loop ts rnd s) = obstacles (obstacle_step (frame_dt ts s) rnd s).
Proof.
  open_loop. keep obstacles. unfold move_step.
  cbn [obstacles set_obstacles]. f_equal.
  apply spawn_step_reads; [keep spawnTimer | keep obstacles]; reflexivity.
Qed.

Lemma laneProgress_loop (ts : Q) (rnd : draws) (s : state) :
  laneProgress (loop ts rnd s) = laneProgress (lane_step (frame_dt ts s) s).
Proof.
  open_loop. keep laneProgress.
  apply lane_step_reads; keep laneProgress; reflexivity.
Qed.

Lemma lanes_loop (ts : Q) (rnd : draws) (s : state) :
  laneFrom (loop ts rnd s) = laneFrom s /\
  laneTo (loop ts rnd s) = laneTo s /\
  laneIndex (loop ts rnd s) = laneIndex s.
Proof.
  open_loop. repeat split;
    [keep laneFrom | keep laneTo | keep laneIndex]; reflexivity.
Qed.

Lemma y_loop (ts : Q) (rnd : draws) (s : state) :
  y (loop ts rnd s) = y (physics_step (frame_dt ts s) s).
Proof.
  open_loop. keep y.
  apply physics_step_reads; [keep y | keep vy | keep sliding]; reflexivity.
Qed.

Lemma vy_loop (ts : Q) (rnd : draws) (s : state) :
  vy (loop ts rnd s) = vy (physics_step (frame_dt ts s) s).
Proof.
  open_loop. keep vy.
  apply physics_step_reads; [keep y | keep vy | keep sliding]; reflexivity.
Qed.

Lemma lastTime_loop (ts : Q) (rnd : draws) (s : state) :
  lastTime (loop ts rnd s) = ts.
Proof. open_loop. keep lastTime. reflexivity. Qed.

Lemma running_loop_false (ts : Q) (rnd : draws) (s : state) :
  running s = false -> running (loop ts rnd s) = false.
Proof. intros R. unfold loop. cbv zeta. now apply running_advance_false. Qed.

(** ** What a command leaves alone *)

Lemma beginLaneMove_keeps (i : Z) (s : state) :
  running (beginLaneMove i s) = running s /\
  score (beginLaneMove i s) = score s /\
  lastTime (beginLaneMove i s) = lastTime s /\
  y (beginLaneMove i s) = y s /\ vy (beginLaneMove i s) = vy s /\
  sliding (beginLaneMove i s) = sliding s /\
  slideTimer (beginLaneMove i s) = slideTimer s /\
  obstacles (beginLaneMove i s) = obstacles s /\
  spawnTimer (beginLaneMove i s) = spawnTimer s.
Proof.
  unfold beginLaneMove. cbv zeta.
  destruct (_ =? laneTo s)%Z; repeat split.
Qed.

Lemma jump_keeps (s : state) :
  laneIndex (jump s) = laneIndex s /\ laneFrom (jump s) = laneFrom s /\
  laneTo (jump s) = laneTo s /\ laneProgress (jump s) = laneProgress s /\
  slideTimer (jump s) = slideTimer s /\
  obstacles (jump s) = obstacles s /\ spawnTimer (jump s) = spawnTimer s.
Proof. unfold jump. destruct (_ && _); repeat split. Qed.

Lemma slide_keeps (s : state) :
  laneIndex (slide s) = laneIndex s /\ laneFrom (slide s) = laneFrom s /\
  laneTo (slide s) = laneTo s /\ laneProgress (slide s) = laneProgress s /\
  obstacles (slide s) = obstacles s /\ spawnTimer (slide s) = spawnTimer s.
Proof.
  unfold slide. destruct (negb (running s)); [repeat split|].
  destruct (_ && _); repeat split.
Qed.

(** ** Invariants *)

Lemma slide_step_inv (dt : Q) (s : state) : slide_inv (slide_step dt s).
Proof.
  unfold slide_inv, slide_step. cbv zeta.
  destruct (sliding s) eqn:E; [|congruence].
  state_simpl. destruct (leb_spec (slideTimer s - dt) 0); state_simpl;
    [discriminate | auto].
Qed.

Lemma slide_inv_step (e : event) (s : state) :
  slide_inv s -> slide_inv (step e s).
Proof.
  unfold slide_inv. intros I.
  destruct e as [| | | | |ts rnd]; cbn [step].
  - discriminate.
  - unfold moveLeft.
    destruct (beginLaneMove_keeps (laneIndex s - 1) s)
      as (_ & _ & _ & _ & _ & -> & -> & _). exact I.
  - unfold moveRight.
    destruct (beginLaneMove_keeps (laneIndex s + 1) s)
      as (_ & _ & _ & _ & _ & -> & -> & _). exact I.
  - unfold jump. destruct (_ && _); [discriminate | exact I].
  - unfold slide. destruct (negb (running s)); [exact I|].
    destruct (_ && _); [|exact I].
    intros _. state_simpl. unfold SLIDE_TIME. lra.
  - rewrite sliding_loop, slideTimer_loop. apply slide_step_inv.
Qed.

Lemma slide_inv_reachable (s : state) : reachable s -> slide_inv s.
Proof.
  apply reachable_ind; [discriminate|].
  intros e s0 _. apply slide_inv_step.
Qed.

Lemma spawn_step_timer (dt : Q) (rnd : draws) (s : state) :
  spawnTimer (spawn_step dt rnd s) < SPAWN_EVERY.
Proof.
  unfold spawn_step, spawnObstacle. cbv zeta. state_simpl.
  destruct (geb_spec (spawnTimer s + dt) SPAWN_EVERY); state_simpl;
    [unfold SPAWN_EVERY; lra | assumption].
Qed.

Lemma move_step_obstacles (dt : Q) (s : state) :
  Forall (fun o => -150 <= Obstacle.x o) (obstacles (move_step dt s)).
Proof.
  unfold move_step. state_simpl.
  induction (obstacles s) as [|o l IH]; cbn [fold_right]; [constructor|].
  cbv zeta. cbn [Obstacle.x Obstacle.set_x].
  destruct (ltb_spec (Obstacle.x o - OBSTACLE_SPEED * dt) (-150));
    [exact IH | constructor; [cbn [Obstacle.x]; assumption | exact IH]].
Qed.

Lemma field_inv_step (e : event) (s : state) :
  field_inv s -> field_inv (step e s).
Proof.
  unfold field_inv. intros [I1 I2].
  destruct e as [| | | | |ts rnd]; cbn [step].
  - split; [cbn; unfold SPAWN_EVERY; lra | constructor].
  - unfold moveLeft.
    destruct (beginLaneMove_keeps (laneIndex s - 1) s)
      as (_ & _ & _ & _ & _ & _ & _ & -> & ->). now split.
  - unfold moveRight.
    destruct (beginLaneMove_keeps (laneIndex s + 1) s)
      as (_ & _ & _ & _ & _ & _ & _ & -> & ->). now split.
  - destruct (jump_keeps s) as (_ & _ & _ & _ & _ & -> & ->). now split.
  - destruct (slide_keeps s) as (_ & _ & _ & _ & -> & ->). now split.
  - rewrite spawnTimer_loop, obstacles_loop. split.
    + apply spawn_step_timer.
    + unfold obstacle_step. apply move_step_obstacles.
Qed.

Lemma field_inv_reachable (s : state) : reachable s -> field_inv s.
Proof.
  apply reachable_ind.
  - split; [cbn; unfold SPAWN_EVERY; lra | constructor].
  - intros e s0 _. apply field_inv_step.
Qed.

Lemma clamp_range (v : Z) :
  (0 <= clamp v LANE_INDEX_MIN LANE_INDEX_MAX <= 2)%Z.
Proof. unfold clamp, LANE_INDEX_MIN, LANE_INDEX_MAX. lia. Qed.

Lemma beginLaneMove_lane_inv (i : Z) (s : state) :
  lane_inv s -> lane_inv (beginLaneMove i s).
Proof.
  unfold lane_inv. intros (F & T & E & P).
  unfold beginLaneMove. cbv zeta.
  destruct (_ =? laneTo s)%Z; [now repeat split|]. state_simpl.
  pose proof (clamp_range i).
  repeat split; try lia. lra.
Qed.

Lemma lane_step_le_1 (dt : Q) (s : state) :
  laneProgress s <= 1 -> laneProgress (lane_step dt s) <= 1.
Proof.
  intros P. unfold lane_step.
  destruct (JS.ltb _ _); state_simpl; [apply Math_min_le_l | exact P].
Qed.

Lemma lane_inv_step (e : event) (s : state) :
  lane_inv s -> lane_inv (step e s).
Proof.
  intros I. destruct e as [| | | | |ts rnd]; cbn [step].
  - unfold lane_inv. cbn. repeat split; try lia. lra.
  - now apply beginLaneMove_lane_inv.
  - now apply beginLaneMove_lane_inv.
  - unfold lane_inv in *.
    destruct (jump_keeps s) as (-> & -> & -> & -> & _). exact I.
  - unfold lane_inv in *.
    destruct (slide_keeps s) as (-> & -> & -> & -> & _). exact I.
  - unfold lane_inv in *. destruct I as (F & T & E & P).
    destruct (lanes_loop ts rnd s) as (-> & -> & ->).
    rewrite laneProgress_loop.
    repeat split; try lia. now apply lane_step_le_1.
Qed.

Lemma lane_inv_reachable (s : state) : reachable s -> lane_inv s.
Proof.
  apply reachable_ind.
  - unfold lane_inv. cbn. repeat split; try lia. lra.
  - intros e s0 _. apply lane_inv_step.
Qed.

(** ** The slide timer *)


(** ** A frame of length zero *)

Lemma frame_dt_zero_iff (ts : Q) (s : state) :
  frame_dt ts s == 0 <-> (lastTime s == 0 \/ ts == lastTime s).
Proof.
  assert (forall v, JS.Math_min 0.032 (v / 1000) == 0 <-> v == 0) as M.
  { intros v.
    destruct (Math_min_spec 0.032 (v / 1000)) as [[A ->]|[A ->]];
      split; intros G; qlra. }
  unfold frame_dt. cbv zeta. rewrite M.
  destruct (falsy_spec (lastTime s)) as [Z0|NZ]; split; intros G.
  - now left.
  - lra.
  - right. lra.
  - destruct G as [G|G]; [contradiction | lra].
Qed.

Lemma move_step_zero (dt : Q) (s : state) :
  dt == 0 ->
  Forall (fun o => -150 <= Obstacle.x o) (obstacles s) ->
  Forall2 Obstacle.eqv (obstacles (move_step dt s)) (obstacles s).
Proof.
  intros Z. unfold move_step. state_simpl.
  induction 1 as [|o l B _ IH]; cbn [fold_right]; [constructor|].
  cbv zeta. cbn [Obstacle.x Obstacle.set_x].
  destruct (ltb_spec (Obstacle.x o - OBSTACLE_SPEED * dt) (-150)) as [A|A].
  - exfalso. unfold OBSTACLE_SPEED, PLAYER_SPEED in A.
    rewrite Z in A. lra.
  - constructor; [|exact IH].
    unfold Obstacle.eqv. cbn. repeat split; try reflexivity.
    rewrite Z. unfold OBSTACLE_SPEED, PLAYER_SPEED. lra.
Qed.

Lemma lane_step_zero (dt : Q) (s : state) :
  dt == 0 -> laneProgress (lane_step dt s) == laneProgress s.
Proof.
  intros Z. unfold lane_step.
  destruct (ltb_spec (laneProgress s) 1) as [A|A]; state_simpl;
    [|reflexivity].
  destruct (Math_min_spec 1 (laneProgress s + dt / LANE_SWITCH_TIME))
    as [[B ->]|[B ->]]; qlra.
Qed.

(** The stance is not assigned by lines 186-187. *)
Lemma physics_step_eq (dt : Q) (s : state) :
  physics_step dt s =
  let v := vy s + GRAVITY * dt in
  let p := y s + v * dt in
  let groundTop := GROUND_Y - currentPlayerH s in
  if JS.gtb p groundTop
  then set_vy 0 (set_y groundTop (set_y p (set_vy v s)))
  else set_y p (set_vy v s).
Proof. reflexivity. Qed.

Lemma physics_step_zero (dt : Q) (s : state) :
  dt == 0 -> y s <= GROUND_Y - currentPlayerH s ->
  y (physics_step dt s) == y s /\ vy (physics_step dt s) == vy s.
Proof.
  intros Z G. rewrite physics_step_eq. cbv zeta.
  assert (y s + (vy s + GRAVITY * dt) * dt == y s) as E
    by (rewrite Z; ring).
  destruct (gtb_spec (y s + (vy s + GRAVITY * dt) * dt)
              (GROUND_Y - currentPlayerH s)) as [A|A]; state_simpl.
  - exfalso. lra.
  - split; [exact E | rewrite Z; ring].
Qed.

Lemma slide_step_zero (dt : Q) (s : state) :
  dt == 0 -> slide_inv s ->
  sliding (slide_step dt s) = sliding s /\
  slideTimer (slide_step dt s) == slideTimer s.
Proof.
  intros Z SI. unfold slide_step. cbv zeta.
  destruct (sliding s) eqn:E; [|now split]. state_simpl.
  specialize (SI E).
  destruct (leb_spec (slideTimer s - dt) 0) as [A|A]; state_simpl.
  - exfalso. lra.
  - split; [exact E | lra].
Qed.

Lemma spawn_step_zero (dt : Q) (rnd : draws) (s : state) :
  dt == 0 -> spawnTimer s < SPAWN_EVERY ->
  spawnTimer (spawn_step dt rnd s) == spawnTimer s /\
  obstacles (spawn_step dt rnd s) = obstacles s.
Proof.
  intros Z FT. unfold spawn_step. cbv zeta. state_simpl.
  destruct (geb_spec (spawnTimer s + dt) SPAWN_EVERY) as [A|A].
  - exfalso. lra.
  - state_simpl. split; [lra | reflexivity].
Qed.

Lemma score_step_zero (dt : Q) (s : state) :
  dt == 0 -> score (score_step dt s) = score s.
Proof.
  intros Z. unfold score_step. destruct (running s); [|reflexivity].
  state_simpl. unfold JS.Math_floor.
  rewrite (Qfloor_comp (200 * dt) 0) by (rewrite Z; ring).
  cbn. lia.
Qed.

(** C1, as the code has it.  A frame whose [dt] is 0 (the first frame
    after a reset, or a repeated timestamp), taken in a reachable state,
    leaves the score, the lane interpolation, the slide state and timer,
    the spawn timer and the obstacles as they are, and leaves [y] and
    [vy] as they are when the player starts the frame on or above the
    ground line of its stance. *)
Theorem zero_dt_frame_changes_nothing (ts : Q) (rnd : draws) (s : state) :
  reachable s ->
  frame_dt ts s == 0 ->
  let s' := loop ts rnd s in
  score s' = score s /\
  laneProgress s' == laneProgress s /\
  laneFrom s' = laneFrom s /\ laneTo s' = laneTo s /\
  laneIndex s' = laneIndex s /\
  sliding s' = sliding s /\ slideTimer s' == slideTimer s /\
  spawnTimer s' == spawnTimer s /\
  Forall2 Obstacle.eqv (obstacles s') (obstacles s) /\
  (y s <= GROUND_Y - currentPlayerH s -> y s' == y s /\ vy s' == vy s).
Proof.
  intros R Z s'. subst s'.
  pose proof (slide_inv_reachable s R) as SI.
  destruct (field_inv_reachable s R) as [FT FO].
  destruct (lanes_loop ts rnd s) as (LF & LT & LI).
  destruct (spawn_step_zero _ rnd s Z FT) as [ST SO].
  destruct (slide_step_zero _ s Z SI) as [SS SM].
  repeat split; try assumption.
  - unfold loop. cbv zeta. unfold advance.
    rewrite score_collision_step, score_obstacle_step, score_player_step.
    exact (score_step_zero _ (set_lastTime ts s) Z).
  - rewrite laneProgress_loop. now apply lane_step_zero.
  - now rewrite sliding_loop.
  - now rewrite slideTimer_loop.
  - now rewrite spawnTimer_loop.
  - rewrite obstacles_loop. unfold obstacle_step.
    rewrite <- SO. apply move_step_zero; [exact Z|]. now rewrite SO.
  - rewrite y_loop. now apply physics_step_zero.
  - rewrite vy_loop. now apply physics_step_zero.
Qed.

(** ** The ground clamp *)

(** Lines 188-189 clamp against the stance the frame started with. *)
Lemma physics_step_ground (dt : Q) (s : state) :
  y (physics_step dt s) <= GROUND_Y - currentPlayerH s.
Proof.
  rewrite physics_step_eq. cbv zeta.
  destruct (gtb_spec (y s + (vy s + GRAVITY * dt) * dt)
              (GROUND_Y - currentPlayerH s)) as [A|A]; state_simpl; lra.
Qed.

(** Landing: when the integrated position is past the ground line, the
    player is put on it with no vertical velocity. *)
Lemma physics_step_landing (dt : Q) (s : state) :
  GROUND_Y - currentPlayerH s < y s + (vy s + GRAVITY * dt) * dt ->
  y (physics_step dt s) = GROUND_Y - currentPlayerH s /\
  vy (physics_step dt s) = 0.
Proof.
  intros L. rewrite physics_step_eq. cbv zeta.
  destruct (gtb_spec (y s + (vy s + GRAVITY * dt) * dt)
              (GROUND_Y - currentPlayerH s)) as [A|A]; state_simpl;
    [now split | lra].
Qed.

(** At the end of a frame the player is on or above the ground line of
    the stance it had when the frame started; hence of its stance at the
    end of the frame, unless the slide ended in this frame. *)
Lemma frame_ground_clamp (ts : Q) (rnd : draws) (s : state) :
  y (loop ts rnd s) <= GROUND_Y - currentPlayerH s /\
  (sliding (loop ts rnd s) = sliding s ->
   y (loop ts rnd s) <= GROUND_Y - currentPlayerH (loop ts rnd s)).
Proof.
  rewrite y_loop. split; [apply physics_step_ground|].
  intros E. unfold currentPlayerH at 1. rewrite E.
  apply physics_step_ground.
Qed.

(** ** Lane interpolation *)







Lemma total_time_cons (d : Q) (l : list Q) :
  total_time (d :: l) = d + total_time l.
Proof. reflexivity. Qed.



Lemma LANES_at_some (i : Z) :
  (0 <= i <= 2)%Z -> exists t, LANES_at i = Some t.
Proof.
  intros R.
  assert (i = 0 \/ i = 1 \/ i = 2)%Z as [->|[->| ->]] by lia;
    cbn; eexists; reflexivity.
Qed.



(** ** Spawn cadence *)








Lemma frame_dts_frame (ts : Q) (rnd : draws) (evs : list event) (s : state) :
  frame_dts (EFrame ts rnd :: evs) s =
  frame_dt ts s :: frame_dts evs (loop ts rnd s).
Proof. reflexivity. Qed.






(** * Further properties of the code *)

(** ** The delta of a frame *)

(** X1.  The delta of a frame is never more than 0.032 s, however long
    the gap; it is 0 on the first frame after a reset ([lastTime] 0); it
    is not negative when the timestamp is not before the previous one;
    and it is the gap itself, in seconds, when that is at most 32 ms. *)
Theorem frame_dt_range (ts : Q) (s : state) :
  frame_dt ts s <= 0.032 /\
  (lastTime s == 0 -> frame_dt ts s == 0) /\
  (lastTime s <= ts -> 0 <= frame_dt ts s) /\
  (~ lastTime s == 0 -> lastTime s + 32 <= ts -> frame_dt ts s == 0.032) /\
  (~ lastTime s == 0 -> ts <= lastTime s + 32 ->
   frame_dt ts s == (ts - lastTime s) / 1000).
Proof.
  split; [apply frame_dt_le|]. unfold frame_dt. cbv zeta.
  destruct (falsy_spec (lastTime s)) as [Z0|NZ];
    match goal with
    | |- context [JS.Math_min ?a ?b] =>
        destruct (Math_min_spec a b) as [[A ->]|[A ->]]
    end;
    repeat split; intros; try contradiction; qlra.
Qed.

(** ** The score *)

Lemma score_loop (ts : Q) (rnd : draws) (s : state) :
  score (loop ts rnd s) =
  if running s then (score s + JS.Math_floor (200 * frame_dt ts s))%Z
  else score s.
Proof. unfold loop. cbv zeta. rewrite score_advance. reflexivity. Qed.

Lemma jump_running_score (s : state) :
  running (jump s) = running s /\ score (jump s) = score s.
Proof. unfold jump. destruct (_ && _); split; reflexivity. Qed.

Lemma slide_running_score (s : state) :
  running (slide s) = running s /\ score (slide s) = score s.
Proof.
  unfold slide. destruct (negb (running s)); [now split|].
  destruct (_ && _); split; reflexivity.
Qed.

Lemma no_reset_cons (e : event) (evs : list event) :
  no_reset (e :: evs) -> is_reset e = false /\ no_reset evs.
Proof.
  unfold no_reset. cbn [forallb]. intros A.
  apply andb_true_iff in A as [A B]. apply negb_true_iff in A. now split.
Qed.

Lemma step_score_command (e : event) (s : state) :
  is_reset e = false -> is_frame e = false -> score (step e s) = score s.
Proof.
  intros A B. destruct e; try discriminate; cbn [step].
  - unfold moveLeft. apply beginLaneMove_keeps.
  - unfold moveRight. apply beginLaneMove_keeps.
  - apply jump_running_score.
  - apply slide_running_score.
Qed.

Lemma frame_dts_command (e : event) (evs : list event) (s : state) :
  is_frame e = false -> frame_dts (e :: evs) s = frame_dts evs (step e s).
Proof. intros A. destruct e; try discriminate; reflexivity. Qed.

(** X2.  In a run without [reset()] whose frames all have [dt >= 0], the
    score never goes down, and it goes up by at most 200 points per
    second of simulated time. *)
Theorem score_never_decreases (evs : list event) (s : state) :
  no_reset evs ->
  Forall (fun d => 0 <= d) (frame_dts evs s) ->
  (score s <= score (run evs s))%Z /\
  inject_Z (score (run evs s) - score s)
    <= 200 * total_time (frame_dts evs s).
Proof.
  revert s. induction evs as [|e evs IH]; intros s NR F.
  - change (run [] s) with s. change (frame_dts [] s) with (@nil Q).
    rewrite Z.sub_diag. split; [lia|].
    unfold total_time. cbn [fold_right]. change (inject_Z 0) with 0. lra.
  - apply no_reset_cons in NR as [NE NR]. rewrite run_cons.
    destruct (is_frame e) eqn:FR.
    + destruct e as [| | | | |ts rnd]; try discriminate.
      rewrite frame_dts_frame in *. apply Forall_cons_iff in F as [D F].
      cbn [step] in *. destruct (IH (loop ts rnd s) NR F) as [I1 I2].
      rewrite total_time_cons.
      assert ((score s <= score (loop ts rnd s))%Z /\
              inject_Z (score (loop ts rnd s) - score s)
                <= 200 * frame_dt ts s) as [S1 S2].
      { rewrite score_loop. destruct (running s).
        - unfold JS.Math_floor.
          pose proof (floor_ge (200 * frame_dt ts s) 0) as G.
          pose proof (Qfloor_le (200 * frame_dt ts s)) as L.
          split; [assert (0 <= Qfloor (200 * frame_dt ts s))%Z
                    by (apply G; change (inject_Z 0) with 0; lra); lia|].
          replace (score s + Qfloor (200 * frame_dt ts s) - score s)%Z
            with (Qfloor (200 * frame_dt ts s)) by lia.
          exact L.
        - rewrite Z.sub_diag. split; [lia|].
          change (inject_Z 0) with 0. lra. }
      split; [lia|].
      replace (score (run evs (loop ts rnd s)) - score s)%Z
        with ((score (run evs (loop ts rnd s)) - score (loop ts rnd s))
              + (score (loop ts rnd s) - score s))%Z by lia.
      rewrite inject_Z_plus. lra.
    + rewrite (frame_dts_command e evs s FR) in *.
      destruct (IH (step e s) NR F) as [I1 I2].
      rewrite (step_score_command e s NE FR) in *. now split.
Qed.

(** ** The end of a run *)

Lemma hits_set_running (b : bool) (s : state) :
  hits (set_running b s) = hits s.
Proof. reflexivity. Qed.

Lemma step_running_command (e : event) (s : state) :
  is_reset e = false -> is_frame e = false ->
  running (step e s) = running s.
Proof.
  intros A B. destruct e; try discriminate; cbn [step].
  - unfold moveLeft. apply beginLaneMove_keeps.
  - unfold moveRight. apply beginLaneMove_keeps.
  - apply jump_running_score.
  - apply slide_running_score.
Qed.

Lemma collision_step_ends (p : state) :
  running p = true ->
  (running (collision_step p) = false <->
   existsb (hits p) (obstacles p) = true).
Proof.
  intros R. unfold collision_step. rewrite R.
  destruct (existsb (hits p) (obstacles p)); cbn [running set_running];
    [now split | rewrite R; split; discriminate].
Qed.

(** A frame that starts running ends the run exactly when an obstacle of
    the state it produces overlaps the player's box in that state. *)
Lemma loop_ends_run_iff (ts : Q) (rnd : draws) (s : state) :
  running s = true ->
  (running (loop ts rnd s) = false <->
   exists o, In o (obstacles (loop ts rnd s)) /\
             hits (loop ts rnd s) o = true).
Proof.
  intros R.
  assert (loop ts rnd s =
          collision_step
            (obstacle_step (frame_dt ts s) rnd
               (player_step (frame_dt ts s) (set_lastTime ts s)))) as E
    by reflexivity.
  rewrite E.
  rewrite (collision_step_keeps obstacles) by (intros; reflexivity).
  rewrite (collision_step_keeps hits) by (intros; reflexivity).
  rewrite <- existsb_exists. apply collision_step_ends.
  now rewrite running_obstacle_step, running_player_step.
Qed.

Lemma step_frame (ts : Q) (rnd : draws) (s : state) :
  step (EFrame ts rnd) s = loop ts rnd s.
Proof. reflexivity. Qed.

(** X3.  While the run is live, the only thing that ends it is a frame
    in which an obstacle overlaps the player's box: no command sets
    [running] to false. *)
Theorem run_ends_only_by_collision (e : event) (s : state) :
  running s = true ->
  (running (step e s) = false <->
   exists ts rnd, e = EFrame ts rnd /\
     exists o, In o (obstacles (loop ts rnd s)) /\
               hits (loop ts rnd s) o = true).
Proof.
  intros R.
  destruct (is_frame e) eqn:FR.
  - destruct e as [| | | | |ts rnd]; try discriminate.
    rewrite step_frame, (loop_ends_run_iff ts rnd s R).
    split.
    + intros O. exists ts, rnd. now split.
    + intros (ts' & rnd' & E & O). injection E as <- <-. exact O.
  - split.
    + intros E. destruct (is_reset e) eqn:RS.
      * destruct e; try discriminate.
      * rewrite (step_running_command e s RS FR) in E. congruence.
    + intros (ts & rnd & -> & _). discriminate.
Qed.

(** ** Moving and pruning the obstacles *)

Lemma move_step_filter (dt : Q) (s : state) :
  obstacles (move_step dt s) =
  filter on_screen (map (moved dt) (obstacles s)).
Proof.
  unfold move_step. cbn [obstacles set_obstacles].
  induction (obstacles s) as [|o l IH]; [reflexivity|].
  cbn [fold_right map filter]. cbv zeta. rewrite IH.
  unfold on_screen, moved.
  destruct (JS.ltb _ _); reflexivity.
Qed.

Lemma spawn_step_obstacles (dt : Q) (rnd : draws) (s : state) :
  obstacles (spawn_step dt rnd s) =
  obstacles s ++
  (if JS.geb (spawnTimer s + dt) SPAWN_EVERY
   then [if JS.ltb (rnd_kind rnd) 0.5
         then Obstacle.mk (W + 100) (GROUND_Y - 70) 80 70 Obstacle.low
         else Obstacle.mk (W + 100) (GROUND_Y - 120) 80 120 Obstacle.tall]
   else []).
Proof.
  unfold spawn_step, spawnObstacle. cbv zeta. state_simpl.
  destruct (JS.geb _ _); state_simpl;
    [destruct (JS.ltb _ _); reflexivity | now rewrite app_nil_r].
Qed.

(** X4.  The obstacles after a frame are the obstacles before it,
    followed by the one spawned in this frame if any, each moved left by
    [OBSTACLE_SPEED * dt], without those whose new [x] is below -150, in
    the same order: an obstacle is removed in the very frame that takes
    it past the line, and a new obstacle has already moved once when the
    frame ends. *)
Theorem frame_moves_then_prunes (ts : Q) (rnd : draws) (s : state) :
  obstacles (loop ts rnd s) =
  filter on_screen
    (map (moved (frame_dt ts s))
       (obstacles s ++
        (if JS.geb (spawnTimer s + frame_dt ts s) SPAWN_EVERY
         then [if JS.ltb (rnd_kind rnd) 0.5
               then Obstacle.mk (W + 100) (GROUND_Y - 70) 80 70 Obstacle.low
               else Obstacle.mk (W + 100) (GROUND_Y - 120) 80 120
                      Obstacle.tall]
         else []))).
Proof.
  rewrite obstacles_loop. unfold obstacle_step.
  now rewrite move_step_filter, spawn_step_obstacles.
Qed.

Lemma moved_ok (dt : Q) (o : Obstacle.t) :
  Obstacle.w o = 80 ->
  ((Obstacle.kind o = Obstacle.low /\ Obstacle.h o = 70) \/
   (Obstacle.kind o = Obstacle.tall /\ Obstacle.h o = 120)) ->
  Obstacle.y o == GROUND_Y - Obstacle.h o ->
  on_screen (moved dt o) = true ->
  obstacle_ok (moved dt o).
Proof.
  intros A B C D. unfold obstacle_ok. repeat split; try assumption.
  unfold on_screen in D. apply negb_true_iff in D.
  destruct (ltb_spec (Obstacle.x (moved dt o)) (-150)) as [E|E];
    [discriminate | exact E].
Qed.

Lemma obstacle_ok_step (e : event) (s : state) :
  Forall obstacle_ok (obstacles s) ->
  Forall obstacle_ok (obstacles (step e s)).
Proof.
  intros I. destruct e as [| | | | |ts rnd]; cbn [step].
  - constructor.
  - unfold moveLeft.
    destruct (beginLaneMove_keeps (laneIndex s - 1) s)
      as (_ & _ & _ & _ & _ & _ & _ & -> & _). exact I.
  - unfold moveRight.
    destruct (beginLaneMove_keeps (laneIndex s + 1) s)
      as (_ & _ & _ & _ & _ & _ & _ & -> & _). exact I.
  - destruct (jump_keeps s) as (_ & _ & _ & _ & _ & -> & _). exact I.
  - destruct (slide_keeps s) as (_ & _ & _ & _ & -> & _). exact I.
  - rewrite obstacles_loop. unfold obstacle_step.
    rewrite move_step_filter, spawn_step_obstacles.
    apply Forall_forall. intros o M.
    apply filter_In in M as [M V]. apply in_map_iff in M as (o0 & <- & M).
    apply in_app_or in M as [M|M].
    + rewrite Forall_forall in I. destruct (I o0 M) as (A & B & C & _).
      now apply moved_ok.
    + destruct (JS.geb _ _); [|contradiction].
      destruct M as [<-|[]].
      destruct (JS.ltb (rnd_kind rnd) 0.5);
        (apply moved_ok; cbn;
         [reflexivity | auto | reflexivity | exact V]).
Qed.

Lemma obstacle_ok_reachable (s : state) :
  reachable s -> Forall obstacle_ok (obstacles s).
Proof.
  apply (reachable_ind (fun s0 => Forall obstacle_ok (obstacles s0)));
    [constructor|].
  intros e s0 _. apply obstacle_ok_step.
Qed.

(** X5.  Every obstacle of every reachable state is 80 wide, 70 high if
    low and 120 high if tall, stands on the ground line
    ([y + h = GROUND_Y]) and has [x >= -150]. *)
Theorem obstacles_well_formed (s : state) :
  reachable s -> Forall obstacle_ok (obstacles s).
Proof. apply obstacle_ok_reachable. Qed.

(** ** Who is hit *)

Lemma laneX_defined (s : state) :
  lane_inv s -> exists lx, laneX s = Some lx.
Proof.
  intros (F & T & _ & _). unfold laneX.
  destruct (LANES_at_some _ F) as [a ->].
  destruct (LANES_at_some _ T) as [b ->]. eauto.
Qed.

Lemma currentPlayerH_cases (s : state) :
  currentPlayerH s = PLAYER_H_SLIDE \/ currentPlayerH s = PLAYER_H.
Proof. unfold currentPlayerH. destruct (sliding s); auto. Qed.

(** X6.  A player resting on the ground line of its stance, standing or
    sliding alike, is hit by a live obstacle exactly when the obstacle's
    centre is less than 80 pixels from the player's: on the ground the
    two boxes always overlap vertically, so sliding does not pass under
    any obstacle. *)
Theorem grounded_player_hit_iff_close (s : state) (o : Obstacle.t) :
  reachable s ->
  In o (obstacles s) ->
  y s == GROUND_Y - currentPlayerH s ->
  (hits s o = true <->
   exists lx, laneX s = Some lx /\
              Obstacle.x o - 80 < lx /\ lx < Obstacle.x o + 80).
Proof.
  intros R I G.
  destruct (laneX_defined s (lane_inv_reachable s R)) as [lx L].
  pose proof (obstacle_ok_reachable s R) as OK.
  rewrite Forall_forall in OK. destruct (OK o I) as (Wd & K & Yo & _).
  assert (0 < Obstacle.h o) as HP
    by (destruct K as [[_ ->]|[_ ->]]; lra).
  assert (0 < currentPlayerH s) as PP
    by (destruct (currentPlayerH_cases s) as [-> | ->];
        unfold PLAYER_H_SLIDE, PLAYER_H; lra).
  unfold hits. cbv zeta. rewrite L, Wd, collides_iff.
  unfold PLAYER_W. split.
  - intros (A & B & _ & _). exists lx. split; [reflexivity|]. qlra.
  - intros (lx' & E & A & B). injection E as <-.
    repeat split; qlra.
Qed.

(** ** Jumping *)

Lemma jump_effective (s : state) :
  running s = true -> onGround s = true ->
  jump s = set_vy JUMP_VY (set_sliding false s).
Proof. intros R G. unfold jump. now rewrite R, G. Qed.

Lemma frame_dt_reads (ts : Q) (s s' : state) :
  lastTime s' = lastTime s -> frame_dt ts s' = frame_dt ts s.
Proof. intros E. unfold frame_dt. now rewrite E. Qed.

Lemma slide_step_not_sliding (dt : Q) (s : state) :
  sliding s = false -> sliding (slide_step dt s) = false.
Proof. intros E. unfold slide_step. now rewrite E. Qed.


(** X8.  A jump taken while sliding on the ground never leaves the
    ground: it ends the slide, and the next frame, whatever its
    timestamp, puts the player at standing height with no vertical
    velocity.  (The 1100 px/s of the jump cover less than the 50 pixels
    between the two stances within one step of at most 0.032 s.) *)
Theorem jump_from_slide_is_cancelled (ts : Q) (rnd : draws) (s : state) :
  running s = true ->
  sliding s = true ->
  onGround s = true ->
  let s' := loop ts rnd (jump s) in
  sliding s' = false /\ y s' == GROUND_Y - PLAYER_H /\ vy s' == 0.
Proof.
  intros R SL OG s'. subst s'.
  assert (GROUND_Y - PLAYER_H_SLIDE <= y s) as G.
  { unfold onGround, currentPlayerH in OG. rewrite SL in OG.
    destruct (geb_spec (y s) (GROUND_Y - PLAYER_H_SLIDE));
      [assumption | discriminate]. }
  rewrite (jump_effective s R OG).
  set (j := set_vy JUMP_VY (set_sliding false s)).
  assert (frame_dt ts j = frame_dt ts s) as FD by reflexivity.
  pose proof (frame_dt_le ts s) as U.
  split.
  - rewrite sliding_loop. now apply slide_step_not_sliding.
  - rewrite y_loop, vy_loop, FD, physics_step_eq. cbv zeta.
    unfold j, currentPlayerH. state_simpl. revert U G.
    generalize (frame_dt ts s) (y s). intros dt y0 U G.
    unfold JUMP_VY, GRAVITY, PLAYER_H, PLAYER_H_SLIDE in *.
    assert (GROUND_Y - 120 < y0 + (-1100 + 2200 * dt) * dt) as B by nra.
    destruct (gtb_spec (y0 + (-1100 + 2200 * dt) * dt) (GROUND_Y - 120))
      as [A|A]; [|lra]. state_simpl. split; reflexivity.
Qed.

(** ** How long a slide lasts *)





(** ** The ground *)

(** X10.  At the end of a frame the player is on or above the ground
    line of the stance it had when the frame began; when gravity took it
    past that line within the frame it is exactly on it, with no
    vertical velocity; and when the frame did not change the stance it
    is on or above the ground line of its stance at the end too. *)
Theorem frame_clamps_to_starting_stance
    (ts : Q) (rnd : draws) (s : state) :
  let dt := frame_dt ts s in
  let s' := loop ts rnd s in
  let ground := GROUND_Y - currentPlayerH s in
  y s' <= ground /\
  (ground < y s + (vy s + GRAVITY * dt) * dt ->
   y s' = ground /\ vy s' = 0) /\
  (sliding s' = sliding s -> y s' <= GROUND_Y - currentPlayerH s').
Proof.
  cbv zeta. rewrite y_loop, vy_loop. split; [apply physics_step_ground|].
  split; [apply physics_step_landing|].
  intros E. unfold currentPlayerH at 1. rewrite E.
  apply physics_step_ground.
Qed.

Lemma jump_slide_y (s : state) : y (jump s) = y s /\ y (slide s) = y s.
Proof.
  unfold jump, slide. split.
  - destruct (_ && _); reflexivity.
  - destruct (negb (running s)); [reflexivity|].
    destruct (_ && _); reflexivity.
Qed.

Lemma below_slide_ground_step (e : event) (s : state) :
  y s <= GROUND_Y - PLAYER_H_SLIDE ->
  y (step e s) <= GROUND_Y - PLAYER_H_SLIDE.
Proof.
  intros I. destruct e as [| | | | |ts rnd]; cbn [step].
  - cbn [y reset]. unfold PLAYER_H, PLAYER_H_SLIDE. lra.
  - unfold moveLeft.
    destruct (beginLaneMove_keeps (laneIndex s - 1) s)
      as (_ & _ & _ & -> & _). exact I.
  - unfold moveRight.
    destruct (beginLaneMove_keeps (laneIndex s + 1) s)
      as (_ & _ & _ & -> & _). exact I.
  - destruct (jump_slide_y s) as [-> _]. exact I.
  - destruct (jump_slide_y s) as [_ ->]. exact I.
  - rewrite y_loop. pose proof (physics_step_ground (frame_dt ts s) s) as G.
    destruct (currentPlayerH_cases s) as [E|E]; rewrite E in G;
      unfold PLAYER_H, PLAYER_H_SLIDE in *; lra.
Qed.

(** X11.  In every reachable state the player's [y] is at most
    [GROUND_Y - 70], the ground line of the sliding stance: whatever the
    commands and the timestamps, the player is never lower than a
    sliding player on the ground. *)
Theorem player_never_below_slide_ground (s : state) :
  reachable s -> y s <= GROUND_Y - PLAYER_H_SLIDE.
Proof.
  apply (reachable_ind (fun s0 => y s0 <= GROUND_Y - PLAYER_H_SLIDE)).
  - cbn [y boot reset]. unfold PLAYER_H, PLAYER_H_SLIDE. lra.
  - intros e s0 _. apply below_slide_ground_step.
Qed.


(** ** Lanes *)

(** X13.  In every reachable state the three lane variables are 0, 1 or
    2, the logical lane is the target of the interpolation, the
    interpolation fraction is at most 1, and the interpolated abscissa
    is a number: no sequence of moves takes the player out of the three
    lanes. *)
Theorem lane_indices_in_range (s : state) :
  reachable s ->
  (0 <= laneIndex s <= 2)%Z /\ (0 <= laneFrom s <= 2)%Z /\
  laneTo s = laneIndex s /\ laneProgress s <= 1 /\
  exists lx, laneX s = Some lx.
Proof.
  intros R. pose proof (lane_inv_reachable s R) as I.
  destruct (laneX_defined s I) as [lx L].
  destruct I as (F & T & E & P).
  repeat split; try lia; try assumption. now exists lx.
Qed.

Lemma beginLaneMove_laneIndex (i : Z) (s : state) :
  laneIndex s = laneTo s ->
  laneIndex (beginLaneMove i s) = clamp i LANE_INDEX_MIN LANE_INDEX_MAX.
Proof.
  intros E. unfold beginLaneMove. cbv zeta.
  destruct (Z.eqb_spec (clamp i LANE_INDEX_MIN LANE_INDEX_MAX) (laneTo s));
    [congruence | reflexivity].
Qed.

Lemma beginLaneMove_same (i : Z) (s : state) :
  clamp i LANE_INDEX_MIN LANE_INDEX_MAX = laneTo s -> beginLaneMove i s = s.
Proof.
  intros E. unfold beginLaneMove. cbv zeta. rewrite E.
  now rewrite Z.eqb_refl.
Qed.

(** X14.  A move towards a lane that does not exist is absorbed: in a
    reachable state [moveLeft()] in lane 0 and [moveRight()] in lane 2
    leave every variable as it is, so an interpolation in progress is
    not restarted. *)
Theorem lane_move_at_edge_is_absorbed (s : state) :
  reachable s ->
  (laneIndex s = 0%Z -> moveLeft s = s) /\
  (laneIndex s = 2%Z -> moveRight s = s).
Proof.
  intros R. destruct (lane_inv_reachable s R) as (_ & _ & E & _).
  split; intros L.
  - unfold moveLeft. apply beginLaneMove_same. rewrite <- E, L. reflexivity.
  - unfold moveRight. apply beginLaneMove_same. rewrite <- E, L. reflexivity.
Qed.

Lemma easeOutCubic_0 : easeOutCubic 0 == 0.
Proof. reflexivity. Qed.

(** X15.  A lane move that changes the lane restarts the interpolation
    from the lane the player was heading to, not from where the player
    is: right after it, in a live or an ended run alike, [laneFrom] is
    the previous [laneIndex], [laneProgress] is 0, and the interpolated
    abscissa is the abscissa of that previous lane, whatever was left of
    an earlier move. *)
Theorem lane_move_restarts_from_previous_target
    (s : state) (mv : event) :
  reachable s ->
  is_lane_move mv = true ->
  laneIndex (step mv s) <> laneIndex s ->
  let s' := step mv s in
  laneFrom s' = laneIndex s /\ laneProgress s' = 0 /\
  laneTo s' = laneIndex s' /\
  exists x a, laneX s' = Some x /\ LANES_at (laneIndex s) = Some a /\
              x == a.
Proof.
  intros R M N s'. subst s'.
  pose proof (lane_inv_reachable s R) as (F0 & T0 & E0 & _).
  pose proof (lane_inv_reachable _ (reachable_step mv s R)) as I'.
  assert (exists i, step mv s = beginLaneMove i s) as [i S1]
    by (destruct mv; try discriminate; eexists; reflexivity).
  rewrite S1 in *. revert N I'. unfold beginLaneMove. cbv zeta.
  destruct (Z.eqb_spec (clamp i LANE_INDEX_MIN LANE_INDEX_MAX) (laneTo s))
    as [Q|Q]; intros N I'; [contradiction|].
  destruct I' as (_ & T' & _ & _). state_simpl.
  repeat split.
  unfold laneX. state_simpl.
  assert (0 <= laneIndex s <= 2)%Z as FI by lia.
  destruct (LANES_at_some _ FI) as [a A].
  destruct (LANES_at_some _ T') as [b B].
  rewrite A, B. exists (a + (b - a) * easeOutCubic 0), a.
  repeat split. rewrite easeOutCubic_0. ring.
Qed.

(** X16.  Away from the edge a move and the opposite move cancel on the
    lane index: from lane 1 or 2, [moveLeft()] then [moveRight()] end in
    the lane they started from, and from lane 0 or 1 so do
    [moveRight()] then [moveLeft()]. *)
Theorem opposite_lane_moves_cancel (s : state) :
  reachable s ->
  ((1 <= laneIndex s)%Z ->
   laneIndex (moveRight (moveLeft s)) = laneIndex s) /\
  ((laneIndex s <= 1)%Z ->
   laneIndex (moveLeft (moveRight s)) = laneIndex s).
Proof.
  intros R. pose proof (lane_inv_reachable s R) as I.
  pose proof (beginLaneMove_lane_inv (laneIndex s - 1) s I)
    as (_ & _ & EL & _).
  pose proof (beginLaneMove_lane_inv (laneIndex s + 1) s I)
    as (_ & _ & ER & _).
  destruct I as (_ & T & E & _).
  unfold moveLeft, moveRight.
  split; intros B;
    rewrite beginLaneMove_laneIndex by assumption;
    rewrite beginLaneMove_laneIndex by assumption;
    unfold clamp, LANE_INDEX_MIN, LANE_INDEX_MAX; lia.
Qed.

Lemma easeOutCubic_range (t : Q) :
  0 <= t -> t <= 1 -> 0 <= easeOutCubic t /\ easeOutCubic t <= 1.
Proof.
  intros L U. unfold easeOutCubic, JS.Math_pow. simpl Qpower.
  assert (0 <= 1 - t) as A by lra. assert (1 - t <= 1) as B by lra.
  revert A B. generalize (1 - t). intros u A B.
  assert (0 <= u * u) as C by nra. assert (u * u <= 1) as D by nra.
  split; nra.
Qed.

(** X17.  In a reachable state whose interpolation fraction is not
    negative the interpolated abscissa lies between the abscissas of the
    lane the move started from and of the lane it goes to: the easing
    never overshoots. *)
Theorem interpolation_between_lanes (s : state) :
  reachable s ->
  0 <= laneProgress s ->
  exists x a b,
    laneX s = Some x /\
    LANES_at (laneFrom s) = Some a /\ LANES_at (laneTo s) = Some b /\
    ((a <= x /\ x <= b) \/ (b <= x /\ x <= a)).
Proof.
  intros R L. destruct (lane_inv_reachable s R) as (F & T & _ & U).
  destruct (LANES_at_some _ F) as [a A].
  destruct (LANES_at_some _ T) as [b B].
  destruct (easeOutCubic_range (laneProgress s) L U) as [E0 E1].
  unfold laneX. rewrite A, B.
  exists (a + (b - a) * easeOutCubic (laneProgress s)), a, b.
  repeat split. revert E0 E1. generalize (easeOutCubic (laneProgress s)).
  intros e E0 E1.
  destruct (Qlt_le_dec b a); [right | left]; split; nra.
Qed.

(** ** Swipes *)



(** X19.  When both coordinates read from the touch are undefined, at
    the start or at the end of the touch, the differences are not
    numbers and no command is called, however long or short the touch
    lasted. *)
Theorem swipe_with_undefined_coordinates (cx cy : num) (t0 t1 : Q) :
  touchend None None t1 (touchstart cx cy t0) = None /\
  touchend cx cy t1 (touchstart None None t0) = None.
Proof.
  unfold touchend, touchstart. cbv zeta.
  cbn [touchStartX touchStartY touchStartT].
  split; destruct cx, cy; cbn; destruct (JS.leb _ _); reflexivity.
Qed.

(** ** The lane drawn for an obstacle *)

Lemma spawn_step_kind (dt : Q) (rnd rnd' : draws) (s : state) :
  JS.ltb (rnd_kind rnd) 0.5 = JS.ltb (rnd_kind rnd') 0.5 ->
  spawn_step dt rnd s = spawn_step dt rnd' s.
Proof.
  intros E. unfold spawn_step, spawnObstacle. cbv zeta. now rewrite E.
Qed.

(** X20.  The lane drawn in [spawnObstacle] has no effect: two frames
    that differ only in that draw, or in the other draw without
    changing the side of 0.5 it falls on, produce the same state.  An
    obstacle has no lane. *)
Theorem lane_draw_is_ignored (ts : Q) (rnd rnd' : draws) (s : state) :
  JS.ltb (rnd_kind rnd) 0.5 = JS.ltb (rnd_kind rnd') 0.5 ->
  loop ts rnd s = loop ts rnd' s.
Proof.
  intros E. unfold loop, advance, obstacle_step. cbv zeta.
  now rewrite (spawn_step_kind _ rnd rnd' _ E).
Qed.

(** ** When time does not go back *)

Lemma frame_dts_app (e1 e2 : list event) (s : state) :
  frame_dts (e1 ++ e2) s = frame_dts e1 s ++ frame_dts e2 (run e1 s).
Proof.
  revert s. induction e1 as [|e e1 IH]; intros s; [reflexivity|].
  cbn [app frame_dts]. rewrite IH, run_cons. now rewrite app_assoc.
Qed.

Lemma reachable_forward_reachable (s : state) :
  reachable_forward s -> reachable s.
Proof. intros (evs & -> & _). now exists evs. Qed.

(** Induction on the runs whose time does not go back. *)
Lemma reachable_forward_ind (P : state -> Prop) :
  P boot ->
  (forall e s,
     reachable_forward s -> P s ->
     (forall ts rnd, e = EFrame ts rnd -> 0 <= frame_dt ts s) ->
     P (step e s)) ->
  forall s, reachable_forward s -> P s.
Proof.
  intros B S s (evs & -> & F).
  induction evs as [|e evs IH] using rev_ind; [exact B|].
  rewrite frame_dts_app in F. apply Forall_app in F as [F1 F2].
  rewrite run_app. change (run [e] (run evs boot))
    with (step e (run evs boot)).
  apply S; [now exists evs | now apply IH |].
  intros ts rnd ->. rewrite frame_dts_frame in F2.
  now apply Forall_cons_iff in F2.
Qed.

Lemma jump_slide_timer (s : state) :
  slideTimer (jump s) = slideTimer s /\
  (slideTimer (slide s) = slideTimer s \/ slideTimer (slide s) = SLIDE_TIME).
Proof.
  unfold jump, slide. split.
  - destruct (_ && _); reflexivity.
  - destruct (negb (running s)); [now left|].
    destruct (_ && _); [now right | now left].
Qed.

Lemma beginLaneMove_progress (i : Z) (s : state) :
  laneProgress (beginLaneMove i s) = laneProgress s \/
  laneProgress (beginLaneMove i s) = 0.
Proof.
  unfold beginLaneMove. cbv zeta.
  destruct (_ =? laneTo s)%Z; [now left | now right].
Qed.

(** X21.  As long as no frame has a negative [dt], the counters stay in
    range: the score is not negative, the interpolation fraction is
    between 0 and 1, the spawn timer is in [0, SPAWN_EVERY), and the
    slide timer is above -0.032 and at most [SLIDE_TIME]. *)
Theorem counters_in_range (s : state) :
  reachable_forward s ->
  (0 <= score s)%Z /\
  0 <= laneProgress s /\ laneProgress s <= 1 /\
  0 <= spawnTimer s /\ spawnTimer s < SPAWN_EVERY /\
  -0.032 < slideTimer s /\ slideTimer s <= SLIDE_TIME.
Proof.
  apply (reachable_forward_ind
    (fun s0 =>
       (0 <= score s0)%Z /\
       0 <= laneProgress s0 /\ laneProgress s0 <= 1 /\
       0 <= spawnTimer s0 /\ spawnTimer s0 < SPAWN_EVERY /\
       -0.032 < slideTimer s0 /\ slideTimer s0 <= SLIDE_TIME)).
  - cbn. unfold SPAWN_EVERY, SLIDE_TIME. repeat split; try lia; lra.
  - intros e s0 R (A & B1 & B2 & C1 & C2 & D1 & D2) NN.
    destruct e as [| | | | |ts rnd]; cbn [step].
    + cbn. unfold SPAWN_EVERY, SLIDE_TIME. repeat split; try lia; lra.
    + unfold moveLeft.
      destruct (beginLaneMove_keeps (laneIndex s0 - 1) s0)
        as (_ & -> & _ & _ & _ & _ & -> & _ & ->).
      destruct (beginLaneMove_progress (laneIndex s0 - 1) s0) as [-> | ->];
        repeat split; try assumption; lra.
    + unfold moveRight.
      destruct (beginLaneMove_keeps (laneIndex s0 + 1) s0)
        as (_ & -> & _ & _ & _ & _ & -> & _ & ->).
      destruct (beginLaneMove_progress (laneIndex s0 + 1) s0) as [-> | ->];
        repeat split; try assumption; lra.
    + destruct (jump_keeps s0) as (_ & _ & _ & -> & -> & _ & ->).
      destruct (jump_running_score s0) as [_ ->].
      repeat split; assumption.
    + destruct (slide_keeps s0) as (_ & _ & _ & -> & _ & ->).
      destruct (slide_running_score s0) as [_ ->].
      destruct (jump_slide_timer s0) as [_ [-> | ->]];
        repeat split; try assumption; unfold SLIDE_TIME; lra.
    + specialize (NN ts rnd eq_refl).
      pose proof (frame_dt_le ts s0) as U.
      pose proof (slide_inv_reachable s0 (reachable_forward_reachable s0 R))
        as SI.
      rewrite score_loop, laneProgress_loop, spawnTimer_loop,
        slideTimer_loop.
      revert NN U. generalize (frame_dt ts s0). intros dt NN U.
      repeat split.
      * destruct (running s0); [|exact A]. unfold JS.Math_floor.
        assert (0 <= Qfloor (200 * dt))%Z
          by (apply floor_ge; change (inject_Z 0) with 0; lra).
        lia.
      * unfold lane_step.
        destruct (JS.ltb _ _); state_simpl; [|exact B1].
        destruct (Math_min_spec 1 (laneProgress s0 + dt / LANE_SWITCH_TIME))
          as [[_ ->]|[_ ->]]; qlra.
      * now apply lane_step_le_1.
      * unfold spawn_step, spawnObstacle. cbv zeta. state_simpl.
        destruct (JS.geb _ _); state_simpl; lra.
      * apply spawn_step_timer.
      * unfold slide_step. cbv zeta. unfold slide_inv in SI.
        destruct (sliding s0); [|exact D1]. specialize (SI eq_refl).
        destruct (JS.leb _ _); state_simpl; lra.
      * unfold slide_step. cbv zeta.
        destruct (sliding s0); [|exact D2].
        destruct (JS.leb _ _); state_simpl; lra.
Qed.

Lemma left_to_right_moved (dt : Q) (l : list Obstacle.t) :
  left_to_right l -> left_to_right (map (moved dt) l).
Proof.
  unfold left_to_right. induction 1 as [|o l S IH F]; cbn [map];
    constructor; [exact IH|].
  apply Forall_map. revert F. apply Forall_impl. intros p L.
  unfold moved. cbn [Obstacle.x Obstacle.set_x]. lra.
Qed.

Lemma left_to_right_filter (f : Obstacle.t -> bool) (l : list Obstacle.t) :
  left_to_right l -> left_to_right (filter f l).
Proof.
  unfold left_to_right. induction 1 as [|o l S IH F]; cbn [filter];
    [constructor|].
  destruct (f o); [|exact IH]. constructor; [exact IH|].
  apply Forall_forall. intros p I. apply filter_In in I as [I _].
  rewrite Forall_forall in F. now apply F.
Qed.

Lemma left_to_right_app (l : list Obstacle.t) (o : Obstacle.t) :
  left_to_right l ->
  Forall (fun p => Obstacle.x p <= Obstacle.x o) l ->
  left_to_right (l ++ [o]).
Proof.
  unfold left_to_right. induction 1 as [|p l S IH F]; intros B; cbn [app].
  - constructor; constructor.
  - apply Forall_cons_iff in B as [B1 B2].
    constructor; [now apply IH|].
    apply Forall_app. split; [exact F | now constructor].
Qed.

(** X22.  As long as no frame has a negative [dt], no obstacle is to the
    right of the spawn point [W + 100], and the array holds the
    obstacles from left to right, oldest first: obstacles never overtake
    one another. *)
Theorem obstacles_left_to_right (s : state) :
  reachable_forward s ->
  Forall (fun o => Obstacle.x o <= W + 100) (obstacles s) /\
  left_to_right (obstacles s).
Proof.
  apply (reachable_forward_ind
    (fun s0 =>
       Forall (fun o => Obstacle.x o <= W + 100) (obstacles s0) /\
       left_to_right (obstacles s0))).
  - split; constructor.
  - intros e s0 _ [A B] NN. destruct e as [| | | | |ts rnd]; cbn [step].
    + split; constructor.
    + unfold moveLeft.
      destruct (beginLaneMove_keeps (laneIndex s0 - 1) s0)
        as (_ & _ & _ & _ & _ & _ & _ & -> & _). now split.
    + unfold moveRight.
      destruct (beginLaneMove_keeps (laneIndex s0 + 1) s0)
        as (_ & _ & _ & _ & _ & _ & _ & -> & _). now split.
    + destruct (jump_keeps s0) as (_ & _ & _ & _ & _ & -> & _). now split.
    + destruct (slide_keeps s0) as (_ & _ & _ & _ & -> & _). now split.
    + specialize (NN ts rnd eq_refl).
      rewrite obstacles_loop. unfold obstacle_step.
      rewrite move_step_filter, spawn_step_obstacles.
      revert NN. generalize (frame_dt ts s0). intros dt NN.
      assert (Forall (fun o => Obstacle.x o <= W + 100)
                (obstacles s0 ++
                 (if JS.geb (spawnTimer s0 + dt) SPAWN_EVERY
                  then [if JS.ltb (rnd_kind rnd) 0.5
                        then Obstacle.mk (W + 100) (GROUND_Y - 70) 80 70
                               Obstacle.low
                        else Obstacle.mk (W + 100) (GROUND_Y - 120) 80 120
                               Obstacle.tall]
                  else [])) /\
              left_to_right
                (obstacles s0 ++
                 (if JS.geb (spawnTimer s0 + dt) SPAWN_EVERY
                  then [if JS.ltb (rnd_kind rnd) 0.5
                        then Obstacle.mk (W + 100) (GROUND_Y - 70) 80 70
                               Obstacle.low
                        else Obstacle.mk (W + 100) (GROUND_Y - 120) 80 120
                               Obstacle.tall]
                  else []))) as [A' B'].
      { destruct (JS.geb _ _); [|rewrite app_nil_r; now split].
        destruct (JS.ltb _ _);
          (split;
           [apply Forall_app; split; [exact A|];
            constructor; [cbn; lra | constructor]
           | apply left_to_right_app; [exact B|]; exact A]). }
      split.
      * apply Forall_forall. intros o I. apply filter_In in I as [I _].
        apply in_map_iff in I as (p & <- & I).
        rewrite Forall_forall in A'. specialize (A' p I).
        unfold moved, OBSTACLE_SPEED, PLAYER_SPEED.
        cbn [Obstacle.x Obstacle.set_x]. nra.
      * apply left_to_right_filter. now apply left_to_right_moved.
Qed.

End Game.

(** ** The theorems at concrete runs *)


(** A second frame carrying the timestamp of the one before it changes
    nothing. *)
Lemma zero_dt_frame_witness :
  let s := run small_canvas (ESlide :: frames 3 1000 16) (boot small_canvas) in
  let s' := loop small_canvas 1032 some_draws s in
  frame_dt 1032 s == 0 /\
  score s' = score s /\ laneProgress s' == laneProgress s /\
  slideTimer s' == slideTimer s /\ spawnTimer s' == spawnTimer s /\
  y s' == y s /\ vy s' == vy s.
Proof.
  cbv zeta.
  assert (frame_dt 1032
            (run small_canvas (ESlide :: frames 3 1000 16)
               (boot small_canvas)) == 0) as Z
    by (vm_compute; reflexivity).
  destruct (zero_dt_frame_changes_nothing small_canvas 1032 some_draws
              (run small_canvas (ESlide :: frames 3 1000 16)
                 (boot small_canvas)))
    as (A1 & A2 & _ & _ & _ & _ & A3 & A4 & _ & A5).
  - eexists. reflexivity.
  - exact Z.
  - destruct A5 as [A5 A6]; [vm_compute; discriminate|].
    exact (conj Z (conj A1 (conj A2 (conj A3 (conj A4 (conj A5 A6)))))).
Defined.

(** C1 fails for a timestamp that goes back: ten milliseconds before the
    previous one give [dt = -0.01], the score drops by 2 and the spawn
    timer runs backwards. *)
Lemma negative_dt_frame_integrates_backwards :
  let s := run small_canvas (frames 1 1000 16) (boot small_canvas) in
  let s' := loop small_canvas 990 some_draws s in
  reachable small_canvas s /\
  frame_dt 990 s <= 0 /\
  (score s' < score s)%Z /\
  spawnTimer s' < spawnTimer s.
Proof.
  cbv zeta. split; [eexists; reflexivity|].
  split; [vm_compute; discriminate|].
  split; vm_compute; reflexivity.
Qed.

(** A run that ended on a collision, then a jump, frames, a slide and a
    lane move. *)
Lemma ended_run_witness :
  let s := run small_canvas (frames 60 1000 32) (boot small_canvas) in
  let evs := [EJump; EFrame 3000 some_draws; ESlide; EMoveLeft;
              EFrame 3016 some_draws] in
  running s = false /\
  running (run small_canvas evs s) = false /\
  score (run small_canvas evs s) = score s /\
  (endings small_canvas (frames 60 1000 32 ++ evs) (boot small_canvas) <= 1)%nat.
Proof.
  cbv zeta.
  assert (running (run small_canvas (frames 60 1000 32) (boot small_canvas))
          = false) as R by (vm_compute; reflexivity).
  split; [exact R|].
  destruct (ended_run_is_final small_canvas
              [EJump; EFrame 3000 some_draws; ESlide; EMoveLeft;
               EFrame 3016 some_draws]
              (run small_canvas (frames 60 1000 32) (boot small_canvas)))
    as [A _]; [reflexivity|].
  destruct (A R) as [A1 A2].
  split; [exact A1|]. split; [exact A2|].
  apply (ended_run_is_final small_canvas). vm_compute. reflexivity.
Defined.

(** C3 fails in the frame where a slide ends.  The player slid on the
    ground, at [GROUND_Y - 70]; the frame at 1512 ms has [dt = 0.032],
    clamps against the sliding stance, then ends the slide: the frame
    finishes with the standing stance and [y] 50 pixels below its ground
    line [GROUND_Y - 120]. *)
Lemma slide_expiry_leaves_player_below_ground :
  let s := run small_canvas (ESlide :: frames 16 1000 32) (boot small_canvas) in
  let s' := loop small_canvas 1512 some_draws s in
  reachable small_canvas s /\
  0 <= frame_dt 1512 s /\
  sliding s = true /\ sliding s' = false /\
  y s' == GROUND_Y small_canvas - PLAYER_H_SLIDE /\
  GROUND_Y small_canvas - currentPlayerH s' < y s'.
Proof.
  cbv zeta. split; [eexists; reflexivity|].
  split; [vm_compute; discriminate|].
  repeat split; vm_compute; reflexivity.
Qed.






(** Boxes that touch along a vertical edge. *)
Lemma touching_edge_witness : collides 0 0 10 10 10 0 10 10 = false.
Proof.
  apply (proj2 (proj2 collides_examples_and_touching_edges)).
  left. reflexivity.
Defined.

(** Two obstacles, one of them on the player, in either order. *)
Lemma collision_order_witness :
  let o1 := Obstacle.mk 900 840 80 120 Obstacle.tall in
  let o2 := Obstacle.mk 1500 890 80 70 Obstacle.low in
  let s := boot hd_canvas in
  running (collision_step hd_canvas (set_obstacles [o1; o2] s)) = false /\
  running (collision_step hd_canvas (set_obstacles [o2; o1] s)) = false.
Proof.
  cbv zeta. split; [vm_compute; reflexivity|].
  rewrite <- (collision_outcome_order_independent hd_canvas (boot hd_canvas)
                [Obstacle.mk 900 840 80 120 Obstacle.tall;
                 Obstacle.mk 1500 890 80 70 Obstacle.low]).
  - vm_compute. reflexivity.
  - apply perm_swap.
Defined.



(** ** The further properties at concrete runs *)

Lemma Forall_nonneg_bool (l : list Q) :
  forallb (fun d => JS.leb 0 d) l = true -> Forall (fun d => 0 <= d) l.
Proof.
  intros A. apply Forall_forall. intros d I.
  rewrite forallb_forall in A. specialize (A d I).
  destruct (leb_spec 0 d); [assumption | discriminate].
Qed.

(** Five frames 16 ms apart from the start. *)
Lemma score_never_decreases_witness :
  (0 <= score (run small_canvas (frames 5 1000 16) (boot small_canvas)))%Z.
Proof.
  apply (score_never_decreases small_canvas (frames 5 1000 16)
           (boot small_canvas)).
  - vm_compute. reflexivity.
  - apply Forall_nonneg_bool. vm_compute. reflexivity.
Defined.

(** The 52nd frame at 32 ms on the small canvas: the first obstacle
    reaches the player. *)
Lemma run_ends_only_by_collision_witness :
  let s := run small_canvas (frames 51 1000 32) (boot small_canvas) in
  exists ts rnd, EFrame 2632 some_draws = EFrame ts rnd /\
    exists o, In o (obstacles (loop small_canvas ts rnd s)) /\
              hits small_canvas (loop small_canvas ts rnd s) o = true.
Proof.
  cbv zeta.
  apply (proj1 (run_ends_only_by_collision small_canvas
                  (EFrame 2632 some_draws)
                  (run small_canvas (frames 51 1000 32) (boot small_canvas))
                  ltac:(vm_compute; reflexivity))).
  vm_compute. reflexivity.
Defined.

(** After forty frames at 30 ms one obstacle is on its way. *)
Lemma obstacles_well_formed_witness :
  Forall (obstacle_ok hd_canvas)
    (obstacles (run hd_canvas (frames 40 1000 30) (boot hd_canvas))).
Proof.
  apply (obstacles_well_formed hd_canvas). eexists. reflexivity.
Defined.

(** The standing player and the first obstacle, one frame before they
    meet. *)
Lemma grounded_player_hit_iff_close_witness :
  let s := run small_canvas (frames 51 1000 32) (boot small_canvas) in
  let o := nth 0 (obstacles s) (Obstacle.mk 0 0 0 0 Obstacle.low) in
  hits small_canvas s o = true <->
  exists lx, laneX small_canvas s = Some lx /\
             Obstacle.x o - 80 < lx /\ lx < Obstacle.x o + 80.
Proof.
  cbv zeta.
  apply (grounded_player_hit_iff_close small_canvas).
  - eexists. reflexivity.
  - vm_compute. left. reflexivity.
  - vm_compute. reflexivity.
Defined.


(** A jump ten frames into a slide, the player on the ground. *)
Lemma jump_from_slide_is_cancelled_witness :
  let s := run small_canvas (ESlide :: frames 10 1000 32)
             (boot small_canvas) in
  let s' := loop small_canvas 1320 some_draws (jump small_canvas s) in
  sliding s' = false /\ y s' == GROUND_Y small_canvas - PLAYER_H /\
  vy s' == 0.
Proof.
  cbv zeta.
  apply (jump_from_slide_is_cancelled small_canvas 1320 some_draws
           (run small_canvas (ESlide :: frames 10 1000 32)
              (boot small_canvas))).
  - vm_compute. reflexivity.
  - vm_compute. reflexivity.
  - vm_compute. reflexivity.
Defined.


(** One frame after a slide has ended. *)
Lemma player_never_below_slide_ground_witness :
  y (run small_canvas (ESlide :: frames 17 1000 32) (boot small_canvas))
  <= GROUND_Y small_canvas - PLAYER_H_SLIDE.
Proof.
  apply (player_never_below_slide_ground small_canvas).
  eexists. reflexivity.
Defined.


(** Three moves to the right from the centre. *)
Lemma lane_indices_in_range_witness :
  (0 <= laneIndex (run small_canvas [EMoveRight; EMoveRight; EMoveRight]
                     (boot small_canvas)) <= 2)%Z.
Proof.
  apply (lane_indices_in_range small_canvas). eexists. reflexivity.
Defined.

(** In the left lane, a move to the left. *)
Lemma lane_move_at_edge_is_absorbed_witness :
  let s := run small_canvas [EMoveLeft] (boot small_canvas) in
  moveLeft s = s.
Proof.
  cbv zeta.
  apply (lane_move_at_edge_is_absorbed small_canvas).
  - eexists. reflexivity.
  - vm_compute. reflexivity.
Defined.

(** A move to the right one frame into a move to the left: the player,
    a fifth of the way to the left lane, restarts from the left lane. *)
Lemma lane_move_restarts_witness :
  let s := run small_canvas (EMoveLeft :: frames 2 1000 30)
             (boot small_canvas) in
  let s' := step small_canvas EMoveRight s in
  laneFrom s' = laneIndex s /\ laneProgress s' = 0 /\
  laneTo s' = laneIndex s' /\
  exists x a, laneX small_canvas s' = Some x /\
              LANES_at small_canvas (laneIndex s) = Some a /\ x == a.
Proof.
  cbv zeta.
  apply (lane_move_restarts_from_previous_target small_canvas).
  - eexists. reflexivity.
  - reflexivity.
  - vm_compute. discriminate.
Defined.

(** Left then right from the centre lane. *)
Lemma opposite_lane_moves_cancel_witness :
  laneIndex (moveRight (moveLeft (boot small_canvas))) = 1%Z.
Proof.
  apply (opposite_lane_moves_cancel small_canvas (boot small_canvas)).
  - exists []. reflexivity.
  - vm_compute. discriminate.
Defined.

(** Two fifths of the way from the centre to the left lane. *)
Lemma interpolation_between_lanes_witness :
  let s := run small_canvas (EMoveLeft :: frames 3 1000 30)
             (boot small_canvas) in
  exists x a b,
    laneX small_canvas s = Some x /\
    LANES_at small_canvas (laneFrom s) = Some a /\
    LANES_at small_canvas (laneTo s) = Some b /\
    ((a <= x /\ x <= b) \/ (b <= x /\ x <= a)).
Proof.
  cbv zeta.
  apply (interpolation_between_lanes small_canvas).
  - eexists. reflexivity.
  - vm_compute. discriminate.
Defined.

(** Two draws that differ in the lane only, in a frame that spawns. *)
Lemma lane_draw_is_ignored_witness :
  let s := run small_canvas (frames 32 1000 32) (boot small_canvas) in
  loop small_canvas 2024 {| rnd_lane := 0.1; rnd_kind := 0.2 |} s =
  loop small_canvas 2024 {| rnd_lane := 0.9; rnd_kind := 0.2 |} s.
Proof.
  cbv zeta. apply (lane_draw_is_ignored small_canvas). reflexivity.
Defined.

(** A slide, then twenty frames. *)
Lemma counters_in_range_witness :
  let s := run small_canvas (ESlide :: frames 20 1000 32)
             (boot small_canvas) in
  (0 <= score s)%Z /\
  0 <= laneProgress s /\ laneProgress s <= 1 /\
  0 <= spawnTimer s /\ spawnTimer s < SPAWN_EVERY /\
  -0.032 < slideTimer s /\ slideTimer s <= SLIDE_TIME.
Proof.
  cbv zeta. apply (counters_in_range small_canvas).
  eexists. split; [reflexivity|].
  apply Forall_nonneg_bool. vm_compute. reflexivity.
Defined.

(** Three obstacles on the wide canvas. *)
Lemma obstacles_left_to_right_witness :
  let s := run hd_canvas (EJump :: frames 110 1000 30) (boot hd_canvas) in
  Forall (fun o => Obstacle.x o <= W hd_canvas + 100) (obstacles s) /\
  left_to_right (obstacles s).
Proof.
  cbv zeta. apply (obstacles_left_to_right hd_canvas).
  eexists. split; [reflexivity|].
  apply Forall_nonneg_bool. vm_compute. reflexivity.
Defined.
